(** * The covid dashboard of [project/3_covid-chart/src/app.ts]

    A shallow embedding of the click-driven orchestration of [app.ts]:
    the JavaScript primitives it calls ([Array.prototype.sort],
    [Array.prototype.slice], [String.prototype.slice]), the page it writes
    to, the store of array objects its functions share by reference, the
    [async] click handler as a resumable task, and the event loop that
    delivers clicks and network responses to it. *)

From Stdlib Require Import ZArith Lia.
From stdpp Require Import base list sorting strings pretty gmap.

Local Open Scope Z_scope.

(** ** JavaScript numbers

    The numbers of [app.ts] are case counts and millisecond timestamps:
    integers far below 2^53, on which double arithmetic is exact. The one
    other value that reaches the code is [NaN], the time value of a date
    string that does not parse. *)

Inductive number : Type :=
| Num (z : Z)
| NaN.

(** [x - y] *)
Definition number_sub (x y : number) : number :=
  match x, y with
  | Num a, Num b => Num (a - b)
  | _, _ => NaN
  end.

(** ** [Array.prototype.sort (comparefn)]

    ECMAScript's [SortCompare]: the comparator's result, with [NaN] read
    as [+0]. *)
Definition SortCompare {A : Type} (comparefn : A -> A -> number) (x y : A) : Z :=
  match comparefn x y with
  | Num v => v
  | NaN => 0
  end.

(** The sort is stable (ECMAScript 2019): [x], which came before the
    elements of [l] in the array, stays before the first element it does
    not compare greater than. *)
Fixpoint sort_insert {A : Type} (comparefn : A -> A -> number) (x : A) (l : list A) : list A :=
  match l with
  | [] => [x]
  | y :: l' =>
      if SortCompare comparefn x y <=? 0 then x :: y :: l'
      else y :: sort_insert comparefn x l'
  end.

(** The elements of the array after [sort]; the array object itself is
    updated in place, see [sortInPlace] below. For a consistent comparator
    ECMAScript fixes the result, whatever algorithm the engine runs: the
    sorted permutation that keeps equal elements in their order, of which
    there is one ([Array_sort_unique] below). For an inconsistent one (a
    date that does not parse compares [NaN] with every other) the order
    is left to the engine, and this is one of its choices. *)
Fixpoint Array_sort {A : Type} (comparefn : A -> A -> number) (l : list A) : list A :=
  match l with
  | [] => []
  | x :: l' => sort_insert comparefn x (Array_sort comparefn l')
  end.

(** ** [slice]

    The relative index of [slice]: a negative index counts from the end,
    and the result is clamped to [0 .. len]. *)
Definition slice_index (len : nat) (i : Z) : nat :=
  Z.to_nat (if i <? 0 then Z.max (Z.of_nat len + i) 0 else Z.min i (Z.of_nat len)).

(** [Array.prototype.slice (start)] *)
Definition Array_slice {A : Type} (start : Z) (l : list A) : list A :=
  drop (slice_index (length l) start) l.

(** [slice (start, end)] on a sequence *)
Definition slice_range {A : Type} (start final : Z) (l : list A) : list A :=
  let k := slice_index (length l) start in
  let e := slice_index (length l) final in
  take (e - k)%nat (drop k l).

(** [String.prototype.slice (start, end)] *)
Definition String_slice (start final : Z) (s : string) : string :=
  String.string_of_list_ascii (slice_range start final (String.list_ascii_of_string s)).

(** [x.toString ()] on an integer number, and the template literal's
    [${x}] *)
Definition Number_toString (x : Z) : string := pretty x.

(** Descending order by a numeric field: the order the comparators
    [b.k - a.k] of [app.ts] ask for. *)
Definition desc {A : Type} (key : A → Z) : relation A := λ a b, key b <= key a.

(** ** The payloads of [./covid]

    [app.ts] imports its payload types from [./covid]; the fields below
    are the ones [app.ts] reads. *)

Inductive CovidStatus : Type :=
| Confirmed
| Recovered
| Deaths.

(** Modelled from the spec: the string values of the enum [CovidStatus],
    declared in [./covid], which is not part of the sources at hand. The
    spec gives the status selector of the time-series endpoint as one of
    confirmed, deaths, recovered. *)
Definition CovidStatus_value (status : CovidStatus) : string :=
  match status with
  | Confirmed => "confirmed"
  | Recovered => "recovered"
  | Deaths => "deaths"
  end.

(** One entry of a [CountryInfoResponse]: a cumulative count at a date
    (the date as the string the API sent). *)
Record CountryInfo : Type := {
  Cases : Z;
  Date : string;
}.

(** One entry of [CovidSummaryResponse.Countries]; [Country_name] is the
    field [Country]. *)
Record Country : Type := {
  Country_name : string;
  Slug : string;
  TotalConfirmed : Z;
  TotalDeaths : Z;
  TotalRecovered : Z;
}.

(** Arrays are objects: a variable holds a reference to one. *)
Abbreviation ref := nat.

(** [CountryInfoResponse] is [CountryInfo[]]. *)
Abbreviation CountryInfoResponse := ref.

(** Of a [CovidSummaryResponse], [setCountryRanksByConfirmedCases] reads
    the array [Countries]. *)
Record CovidSummaryResponse : Type := {
  Countries : ref;
}.

(** An [AxiosResponse<CountryInfoResponse>] *)
Record AxiosResponse : Type := {
  data : CountryInfoResponse;
}.

(** ** The [Date] built-in

    Parsing a date string and printing a date in the locale of the
    browser are the runtime's: [Date_getTime s] is
    [new Date(s).getTime()], which is [NaN] when [s] is no date, and
    [Date_toLocaleDateString s] is [new Date(s).toLocaleDateString()]. *)
Class DateBuiltin : Type := {
  Date_getTime : string → number;
  Date_toLocaleDateString : string → string;
}.

(** ** The page *)

(** The elements [app.ts] creates and appends to its lists:
    - [SpinnerElement id] is [createSpinnerElement (id)];
    - [RankItem id cases country] is the [li.list-item] with that [id],
      holding a [span.cases] and a [p.country] with these texts;
    - [DetailItem kind count date] is the [li.list-item-b] holding a
      [span] of class [kind] and a [p] with these texts. *)
Inductive Node : Type :=
| SpinnerElement (id : string)
| RankItem (id cases country : string)
| DetailItem (kind count date : string).

#[global] Instance Node_eq_dec : EqDecision Node.
Proof. solve_decision. Defined.

Definition deathSpinner : Node := SpinnerElement "deaths-spinner".
Definition recoveredSpinner : Node := SpinnerElement "recovered-spinner".

(** What [renderChart] hands to [new Chart]: the labels and the data of
    its one dataset, and the dataset's label. *)
Record ChartConfig : Type := {
  labels : list string;
  dataset_label : string;
  dataset_data : list Z;
}.

(** The element a click lands on, under the listener of [rankList]: the
    list itself or one of the items [setCountryRanksByConfirmedCases]
    appended, that is an [li], or the [span] or [p] inside one, whose
    [parentElement] is that [li]. The ids are the [id] of the [li]. *)
Inductive EventTarget : Type :=
| HTMLParagraphElement (parentElement_id : string)
| HTMLSpanElement (parentElement_id : string)
| HTMLLIElement (id : string)
| HTMLOListElement.

Record MouseEvent : Type := {
  target : EventTarget;
}.

(** Everything the functions of [app.ts] read and write: the children of
    the three lists, the text of the two counters the click handler
    writes, the chart constructed on [#lineChart], the module variable
    [isDeathLoading], the arrays in the store, and the URLs requested so
    far, oldest first. *)
Record World : Type := {
  rankList : list Node;
  deathsList : list Node;
  recoveredList : list Node;
  deathsTotal : string;
  recoveredTotal : string;
  charts : list ChartConfig;
  isDeathLoading : bool;
  infoArrays : gmap ref (list CountryInfo);
  countryArrays : gmap ref (list Country);
  requests : list string;
}.

Definition set_rankList (v : list Node) (w : World) : World :=
  {| rankList := v; deathsList := deathsList w; recoveredList := recoveredList w;
     deathsTotal := deathsTotal w; recoveredTotal := recoveredTotal w;
     charts := charts w; isDeathLoading := isDeathLoading w;
     infoArrays := infoArrays w; countryArrays := countryArrays w;
     requests := requests w |}.

Definition set_deathsList (v : list Node) (w : World) : World :=
  {| rankList := rankList w; deathsList := v; recoveredList := recoveredList w;
     deathsTotal := deathsTotal w; recoveredTotal := recoveredTotal w;
     charts := charts w; isDeathLoading := isDeathLoading w;
     infoArrays := infoArrays w; countryArrays := countryArrays w;
     requests := requests w |}.

Definition set_recoveredList (v : list Node) (w : World) : World :=
  {| rankList := rankList w; deathsList := deathsList w; recoveredList := v;
     deathsTotal := deathsTotal w; recoveredTotal := recoveredTotal w;
     charts := charts w; isDeathLoading := isDeathLoading w;
     infoArrays := infoArrays w; countryArrays := countryArrays w;
     requests := requests w |}.

Definition set_deathsTotal (v : string) (w : World) : World :=
  {| rankList := rankList w; deathsList := deathsList w; recoveredList := recoveredList w;
     deathsTotal := v; recoveredTotal := recoveredTotal w;
     charts := charts w; isDeathLoading := isDeathLoading w;
     infoArrays := infoArrays w; countryArrays := countryArrays w;
     requests := requests w |}.

Definition set_recoveredTotal (v : string) (w : World) : World :=
  {| rankList := rankList w; deathsList := deathsList w; recoveredList := recoveredList w;
     deathsTotal := deathsTotal w; recoveredTotal := v;
     charts := charts w; isDeathLoading := isDeathLoading w;
     infoArrays := infoArrays w; countryArrays := countryArrays w;
     requests := requests w |}.

Definition set_charts (v : list ChartConfig) (w : World) : World :=
  {| rankList := rankList w; deathsList := deathsList w; recoveredList := recoveredList w;
     deathsTotal := deathsTotal w; recoveredTotal := recoveredTotal w;
     charts := v; isDeathLoading := isDeathLoading w;
     infoArrays := infoArrays w; countryArrays := countryArrays w;
     requests := requests w |}.

Definition set_isDeathLoading (v : bool) (w : World) : World :=
  {| rankList := rankList w; deathsList := deathsList w; recoveredList := recoveredList w;
     deathsTotal := deathsTotal w; recoveredTotal := recoveredTotal w;
     charts := charts w; isDeathLoading := v;
     infoArrays := infoArrays w; countryArrays := countryArrays w;
     requests := requests w |}.

Definition set_infoArrays (v : gmap ref (list CountryInfo)) (w : World) : World :=
  {| rankList := rankList w; deathsList := deathsList w; recoveredList := recoveredList w;
     deathsTotal := deathsTotal w; recoveredTotal := recoveredTotal w;
     charts := charts w; isDeathLoading := isDeathLoading w;
     infoArrays := v; countryArrays := countryArrays w;
     requests := requests w |}.

Definition set_countryArrays (v : gmap ref (list Country)) (w : World) : World :=
  {| rankList := rankList w; deathsList := deathsList w; recoveredList := recoveredList w;
     deathsTotal := deathsTotal w; recoveredTotal := recoveredTotal w;
     charts := charts w; isDeathLoading := isDeathLoading w;
     infoArrays := infoArrays w; countryArrays := v;
     requests := requests w |}.

Definition set_requests (v : list string) (w : World) : World :=
  {| rankList := rankList w; deathsList := deathsList w; recoveredList := recoveredList w;
     deathsTotal := deathsTotal w; recoveredTotal := recoveredTotal w;
     charts := charts w; isDeathLoading := isDeathLoading w;
     infoArrays := infoArrays w; countryArrays := countryArrays w;
     requests := v |}.

(** ** Tasks: state, exceptions and [await]

    A promise is named by the position of its request in [requests]. *)
Definition Promise : Type := nat.

Inductive Exception : Type :=
| TypeError
| NotFoundError
| NetworkError
| CanvasInUse.

(** How a promise of [axios.get] settles. *)
Inductive Settled : Type :=
| Fulfilled (response : AxiosResponse)
| Rejected (reason : Exception).

(** Where a function call stands when control leaves it: it returned, it
    threw, or (an [async] function) it is suspended at an [await] on [p],
    to be resumed as [k] with the way [p] settled and the world of that
    later time. *)
Inductive Outcome (A : Type) : Type :=
| Returned (a : A) (w : World)
| Thrown (e : Exception) (w : World)
| Awaiting (p : Promise) (k : Settled → World → Outcome A) (w : World).
Arguments Returned {A} a w.
Arguments Thrown {A} e w.
Arguments Awaiting {A} p k w.

Definition Task (A : Type) : Type := World → Outcome A.

Fixpoint Outcome_bind {A B : Type} (f : A → Task B) (o : Outcome A) : Outcome B :=
  match o with
  | Returned a w => f a w
  | Thrown e w => Thrown e w
  | Awaiting p k w => Awaiting p (λ r w', Outcome_bind f (k r w')) w
  end.

#[global] Instance Task_ret : MRet Task := λ A a w, Returned a w.
#[global] Instance Task_bind : MBind Task := λ A B f m w, Outcome_bind f (m w).
#[global] Instance Task_fmap : FMap Task := λ A B f m, m ≫= λ a, mret (f a).

Definition gets {A : Type} (f : World → A) : Task A := λ w, Returned (f w) w.
Definition modify (f : World → World) : Task unit := λ w, Returned tt (f w).
Definition throw {A : Type} (e : Exception) : Task A := λ w, Thrown e w.

(** [await p]: the function is suspended; a rejection is thrown at the
    [await] when it resumes. *)
Definition await (p : Promise) : Task AxiosResponse :=
  λ w, Awaiting p (λ r w', match r with
                           | Fulfilled response => Returned response w'
                           | Rejected reason => Thrown reason w'
                           end) w.

(** ** The DOM calls of [app.ts] *)

(** [parent.appendChild (node)] for a [node] just created: it becomes the
    last child. *)
Definition appendChild (node : Node) (children : list Node) : list Node :=
  children ++ [node].

(** [parent.appendChild (node)] for a [node] that lives on (the two
    spinners): a node that is a child already moves to the end. *)
Definition appendChild_existing (node : Node) (children : list Node) : list Node :=
  filter (λ n, n ≠ node) children ++ [node].

(** [parent.removeChild (node)]: a [NotFoundError] when [node] is not a
    child of [parent]. *)
Definition removeChild (node : Node) (children : list Node) : option (list Node) :=
  if decide (node ∈ children) then Some (filter (λ n, n ≠ node) children) else None.

(** ** The array calls of [app.ts] on the store *)

(** [data.sort (comparefn)] sorts the array [data] refers to in place and
    returns the same reference. *)
Definition sortInPlace (comparefn : CountryInfo → CountryInfo → number)
    (data : CountryInfoResponse) : Task CountryInfoResponse :=
  modify (λ w, set_infoArrays
    (<[data := Array_sort comparefn (infoArrays w !!! data)]> (infoArrays w)) w);;
  mret data.

Definition sortCountriesInPlace (comparefn : Country → Country → number)
    (data : ref) : Task ref :=
  modify (λ w, set_countryArrays
    (<[data := Array_sort comparefn (countryArrays w !!! data)]> (countryArrays w)) w);;
  mret data.

(** [array.forEach (callbackfn)], for a callback that leaves the array
    alone *)
Fixpoint forEach {A : Type} (callbackfn : A → Task unit) (elements : list A) : Task unit :=
  match elements with
  | [] => mret tt
  | value :: rest => callbackfn value;; forEach callbackfn rest
  end.

(** [`${x}`] for the [any] that [handleListClick] passes as the country
    code: a string, or [undefined]. *)
Definition any_toString (x : option string) : string :=
  match x with
  | Some s => s
  | None => "undefined"
  end.

(** [axios.get (url)] sends the request and returns its promise. *)
Definition axios_get (url : string) : Task Promise :=
  p ← gets (λ w, length (requests w));
  modify (λ w, set_requests (requests w ++ [url]) w);;
  mret p.

(** ** The event loop's state

    The page's one listener is [handleListClick]; [waiting] holds the calls
    of it that are suspended, each with the promise it awaits. The loop is
    that of the clicks and of the requests they send; the one request of
    [setupData], for the summary, is not part of it. *)
Definition Continuation : Type := Settled → World → Outcome unit.

Record Loop : Type := {
  world : World;
  waiting : list (Promise * Continuation);
}.

(** What the browser delivers: a click under [rankList], the response to
    a request (its body an array of entries), or the failure of one. *)
Inductive Event : Type :=
| Click (event : MouseEvent)
| Response (p : Promise) (payload : list CountryInfo)
| Failure (p : Promise).

(** A call leaves the loop: returned, thrown (nothing in [app.ts] catches;
    the runtime reports the rejection on the console) or suspended. *)
Definition park (o : Outcome unit) (others : list (Promise * Continuation)) : Loop :=
  match o with
  | Returned _ w => {| world := w; waiting := others |}
  | Thrown _ w => {| world := w; waiting := others |}
  | Awaiting p k w => {| world := w; waiting := others ++ [(p, k)] |}
  end.

(** [p] settles: the calls suspended on it resume, oldest first. *)
Definition settle (p : Promise) (r : Settled) (st : Loop) : Loop :=
  foldl (λ st' e, park (e.2 r (world st')) (waiting st'))
        {| world := world st; waiting := filter (λ e, e.1 ≠ p) (waiting st) |}
        (filter (λ e, e.1 = p) (waiting st)).

(** The loop at rest: no click is being served. *)
Definition idle (st : Loop) : Prop :=
  isDeathLoading (world st) = false ∧ waiting st = [].

(** ** The functions of [app.ts] *)

Section app.
Context `{DateBuiltin}.

Definition getUnixTimestamp (date : string) : number := Date_getTime date.

(** An entry's date as a time value, for the entries that have one:
    [hasDate] holds when the date string parses. *)
Definition hasDate (value : CountryInfo) : Prop :=
  getUnixTimestamp (Date value) ≠ NaN.

Definition timeOf (value : CountryInfo) : Z :=
  match getUnixTimestamp (Date value) with
  | Num t => t
  | NaN => 0
  end.

Definition fetchCountryInfo (countryCode : option string) (status : CovidStatus) : Task Promise :=
  let url := "https://api.covid19api.com/country/" +:+ any_toString countryCode
             +:+ "/status/" +:+ CovidStatus_value status in
  axios_get url.

(** The [li] the callbacks of [setDeathsList] and [setRecoveredList] build
    for an entry; [kind] is the class of its [span]. *)
Definition detailItem (kind : string) (value : CountryInfo) : Node :=
  DetailItem kind (Number_toString (Cases value))
    (String_slice 0 (-1) (Date_toLocaleDateString (Date value))).

Definition setDeathsList (data : CountryInfoResponse) : Task unit :=
  sorted ← sortInPlace
    (λ a b, number_sub (getUnixTimestamp (Date b)) (getUnixTimestamp (Date a))) data;
  elements ← gets (λ w, infoArrays w !!! sorted);
  forEach (λ value,
    let li := detailItem "deaths" value in
    modify (λ w, set_deathsList (appendChild li (deathsList w)) w)) elements.

Definition clearDeathList : Task unit := modify (set_deathsList []).

Definition setTotalDeathsByCountry (data : CountryInfoResponse) : Task unit :=
  elements ← gets (λ w, infoArrays w !!! data);
  match elements !! 0%nat with
  | Some first => modify (set_deathsTotal (Number_toString (Cases first)))
  | None => throw TypeError
  end.

Definition setRecoveredList (data : CountryInfoResponse) : Task unit :=
  sorted ← sortInPlace
    (λ a b, number_sub (getUnixTimestamp (Date b)) (getUnixTimestamp (Date a))) data;
  elements ← gets (λ w, infoArrays w !!! sorted);
  forEach (λ value,
    let li := detailItem "recovered" value in
    modify (λ w, set_recoveredList (appendChild li (recoveredList w)) w)) elements.

Definition clearRecoveredList : Task unit := modify (set_recoveredList []).

Definition setTotalRecoveredByCountry (data : CountryInfoResponse) : Task unit :=
  elements ← gets (λ w, infoArrays w !!! data);
  match elements !! 0%nat with
  | Some first => modify (set_recoveredTotal (Number_toString (Cases first)))
  | None => throw TypeError
  end.

Definition startLoadingAnimation : Task unit :=
  modify (λ w, set_deathsList (appendChild_existing deathSpinner (deathsList w)) w);;
  modify (λ w, set_recoveredList (appendChild_existing recoveredSpinner (recoveredList w)) w).

Definition endLoadingAnimation : Task unit :=
  children ← gets deathsList;
  match removeChild deathSpinner children with
  | Some rest => modify (set_deathsList rest)
  | None => throw NotFoundError
  end;;
  children ← gets recoveredList;
  match removeChild recoveredSpinner children with
  | Some rest => modify (set_recoveredList rest)
  | None => throw NotFoundError
  end.

(** [new Chart (ctx, ...)] on the canvas [#lineChart]. The constructor of
    chart.js throws an [Error] ("Canvas is already in use") when a chart
    lives on the canvas already, and [app.ts] destroys none: [charts]
    holds the chart that lives on the canvas, if there is one. *)
Definition renderChart (data : list Z) (labels : list string) : Task unit :=
  existing ← gets charts;
  match existing with
  | [] =>
      modify (λ w, set_charts
        (charts w ++ [{| labels := labels;
                         dataset_label := "Confirmed for the last two weeks";
                         dataset_data := data |}]) w)
  | _ :: _ => throw CanvasInUse
  end.

Definition setChartData (data : CountryInfoResponse) : Task unit :=
  elements ← gets (λ w, infoArrays w !!! data);
  let chartData := Cases <$> Array_slice (-14) elements in
  let chartLabel :=
    (λ value, String_slice 5 (-1) (Date_toLocaleDateString (Date value)))
      <$> Array_slice (-14) elements in
  renderChart chartData chartLabel.

(** What [setChartData] hands to [renderChart] for the entries of a
    series. *)
Definition chartOf (elements : list CountryInfo) : ChartConfig :=
  {| labels := (λ value, String_slice 5 (-1) (Date_toLocaleDateString (Date value)))
                 <$> Array_slice (-14) elements;
     dataset_label := "Confirmed for the last two weeks";
     dataset_data := Cases <$> Array_slice (-14) elements |}.

Definition handleListClick (event : MouseEvent) : Task unit :=
  let selectedId : option string := None in
  let selectedId :=
    match target event with
    | HTMLParagraphElement parentElement_id
    | HTMLSpanElement parentElement_id => Some parentElement_id
    | _ => selectedId
    end in
  let selectedId :=
    match target event with
    | HTMLLIElement id => Some id
    | _ => selectedId
    end in
  loading ← gets isDeathLoading;
  if loading : bool then mret tt else
  clearDeathList;;
  clearRecoveredList;;
  startLoadingAnimation;;
  modify (set_isDeathLoading true);;
  deathResponse ← data <$> (fetchCountryInfo selectedId Deaths ≫= await);
  recoveredResponse ← data <$> (fetchCountryInfo selectedId Recovered ≫= await);
  confirmedResponse ← data <$> (fetchCountryInfo selectedId Confirmed ≫= await);
  endLoadingAnimation;;
  setDeathsList deathResponse;;
  setTotalDeathsByCountry deathResponse;;
  setRecoveredList recoveredResponse;;
  setTotalRecoveredByCountry recoveredResponse;;
  setChartData confirmedResponse;;
  modify (set_isDeathLoading false).

(** The [li] the callback of [setCountryRanksByConfirmedCases] builds for
    a record. *)
Definition rankItem (value : Country) : Node :=
  RankItem (Slug value) (Number_toString (TotalConfirmed value)) (Country_name value).

Definition setCountryRanksByConfirmedCases (data : CovidSummaryResponse) : Task unit :=
  sorted ← sortCountriesInPlace
    (λ a b, Num (TotalConfirmed b - TotalConfirmed a)) (Countries data);
  elements ← gets (λ w, countryArrays w !!! sorted);
  forEach (λ value,
    let li := rankItem value in
    modify (λ w, set_rankList (appendChild li (rankList w)) w)) elements.

(** ** The event loop *)

(** The body of a response is parsed into a new array. *)
Definition newArray (payload : list CountryInfo) (w : World) : ref * World :=
  let array := fresh (dom (infoArrays w)) in
  (array, set_infoArrays (<[array := payload]> (infoArrays w)) w).

(** The calls awaiting a response resume with a reference to its array.
    An event for a promise nothing awaits changes nothing. *)
Definition step (e : Event) (st : Loop) : Loop :=
  match e with
  | Click event => park (handleListClick event (world st)) (waiting st)
  | Response p payload =>
      if decide (p ∈ (waiting st).*1) then
        let '(array, w) := newArray payload (world st) in
        settle p (Fulfilled {| data := array |}) {| world := w; waiting := waiting st |}
      else st
  | Failure p => settle p (Rejected NetworkError) st
  end.

Definition run (st : Loop) (events : list Event) : Loop :=
  foldl (λ st' e, step e st') st events.

(** ** A call of [handleListClick] under way *)

(** The country key [handleListClick] reads off its event. *)
Definition selectedIdOf (event : MouseEvent) : option string :=
  match target event with
  | HTMLParagraphElement parentElement_id
  | HTMLSpanElement parentElement_id => Some parentElement_id
  | HTMLLIElement id => Some id
  | HTMLOListElement => None
  end.

(** The URL [fetchCountryInfo] requests. *)
Definition countryUrl (countryCode : option string) (status : CovidStatus) : string :=
  "https://api.covid19api.com/country/" +:+ any_toString countryCode
  +:+ "/status/" +:+ CovidStatus_value status.

(** The world once [fetchCountryInfo] has sent its request. *)
Definition requested (countryCode : option string) (status : CovidStatus) (w : World) : World :=
  set_requests (requests w ++ [countryUrl countryCode status]) w.

(** The world when [handleListClick], called in [w] with the flag down,
    reaches its first [await]. *)
Definition started (event : MouseEvent) (w : World) : World :=
  requested (selectedIdOf event) Deaths
    (set_isDeathLoading true
       (set_recoveredList [recoveredSpinner] (set_deathsList [deathSpinner] w))).

(** The statements of [handleListClick] after its third [await]. *)
Definition renderResponses
    (deathResponse recoveredResponse confirmedResponse : CountryInfoResponse) : Task unit :=
  endLoadingAnimation;;
  setDeathsList deathResponse;;
  setTotalDeathsByCountry deathResponse;;
  setRecoveredList recoveredResponse;;
  setTotalRecoveredByCountry recoveredResponse;;
  setChartData confirmedResponse;;
  modify (set_isDeathLoading false).

(** How a call suspended at the third, the second and the first [await]
    goes on: a rejection is thrown out of the call; a response takes it to
    the next request and [await], and after the third to
    [renderResponses]. *)
Definition atThirdAwait (deathResponse recoveredResponse : CountryInfoResponse)
    (k : Continuation) : Prop :=
  (∀ e w, k (Rejected e) w = Thrown e w) ∧
  (∀ response w,
     k (Fulfilled response) w
     = renderResponses deathResponse recoveredResponse (data response) w).

Definition atSecondAwait (selectedId : option string) (deathResponse : CountryInfoResponse)
    (k : Continuation) : Prop :=
  (∀ e w, k (Rejected e) w = Thrown e w) ∧
  (∀ response w, ∃ k',
     k (Fulfilled response) w
     = Awaiting (length (requests w)) k' (requested selectedId Confirmed w) ∧
     atThirdAwait deathResponse (data response) k').

Definition atFirstAwait (selectedId : option string) (k : Continuation) : Prop :=
  (∀ e w, k (Rejected e) w = Thrown e w) ∧
  (∀ response w, ∃ k',
     k (Fulfilled response) w
     = Awaiting (length (requests w)) k' (requested selectedId Recovered w) ∧
     atSecondAwait selectedId (data response) k').

(** The world a call was in when control left it. *)
Definition worldOf {A : Type} (o : Outcome A) : World :=
  match o with
  | Returned _ w | Thrown _ w | Awaiting _ _ w => w
  end.

(** The call is over: it returned or threw. *)
Definition completes {A : Type} (o : Outcome A) : Prop :=
  match o with
  | Awaiting _ _ _ => False
  | _ => True
  end.

(** The loop serves a click: the flag is up and one call is suspended, at
    its first, second or third [await]. *)
Inductive serving (st : Loop) : Prop :=
| serving_first p k selectedId :
    waiting st = [(p, k)] → atFirstAwait selectedId k → serving st
| serving_second p k selectedId deathResponse :
    waiting st = [(p, k)] → atSecondAwait selectedId deathResponse k → serving st
| serving_third p k deathResponse recoveredResponse :
    waiting st = [(p, k)] → atThirdAwait deathResponse recoveredResponse k → serving st.

(** What the guard of [handleListClick] maintains: no call is suspended,
    or the flag is up and the loop serves one click. *)
Definition guarded (st : Loop) : Prop :=
  waiting st = [] ∨ (isDeathLoading (world st) = true ∧ serving st).

(** The responses to the requests of a call whose first promise is [p],
    in the order of the requests. *)
Definition responses (p : Promise) (payloads : list (list CountryInfo)) : list Event :=
  imap (λ i payload, Response (i + p)%nat payload) payloads.

(** The page between the first [await] of a call and its end, in terms of
    the page [before] the click: the flag is up, each detail list holds
    its spinner and nothing else, and the counters, the charts and the
    rank list are as they were. *)
Definition pending (before now : World) : Prop :=
  isDeathLoading now = true ∧
  deathsList now = [deathSpinner] ∧
  recoveredList now = [recoveredSpinner] ∧
  deathsTotal now = deathsTotal before ∧
  recoveredTotal now = recoveredTotal before ∧
  charts now = charts before ∧
  rankList now = rankList before.
End app.

(** ** The counters of the world

    Rendering the summary also writes three counters. [deathsTotal] and
    [recoveredTotal] are the elements the click handler writes too;
    [confirmedTotal] is written by [setTotalConfirmedNumber] alone. *)

(** [array.reduce (callbackfn, initialValue)] *)
Definition Array_reduce {A B : Type} (callbackfn : B → A → B) (initialValue : B)
    (elements : list A) : B :=
  foldl callbackfn initialValue elements.

(** The elements of the page that only the rendering of the summary
    writes; of these the functions modelled here write [confirmedTotal]. *)
Record SummaryElements : Type := {
  confirmedTotal : string;
}.

(** [setTotalConfirmedNumber] reads the array in the store and writes
    [confirmedTotal]. *)
Definition setTotalConfirmedNumber (data : CovidSummaryResponse) (w : World)
    (elements : SummaryElements) : SummaryElements :=
  {| confirmedTotal :=
       Number_toString
         (Array_reduce (λ total current, total + TotalConfirmed current) 0
            (countryArrays w !!! Countries data)) |}.

Definition setTotalDeathsByWorld (data : CovidSummaryResponse) : Task unit :=
  countries ← gets (λ w, countryArrays w !!! Countries data);
  modify (set_deathsTotal
    (Number_toString (Array_reduce (λ total current, total + TotalDeaths current) 0 countries))).

Definition setTotalRecoveredByWorld (data : CovidSummaryResponse) : Task unit :=
  countries ← gets (λ w, countryArrays w !!! Countries data);
  modify (set_recoveredTotal
    (Number_toString
       (Array_reduce (λ total current, total + TotalRecovered current) 0 countries))).

(** The sum of a numeric field over the records, in no particular
    order. *)
Definition sumOf {A : Type} (field : A → Z) (elements : list A) : Z :=
  foldr (λ current total, field current + total) 0 elements.

(** How many of the events are clicks. *)
Fixpoint clicks (events : list Event) : nat :=
  match events with
  | [] => 0
  | Click _ :: rest => S (clicks rest)
  | _ :: rest => clicks rest
  end.

(** ** The requests a call has still to send *)

Section accounting.
Context `{DateBuiltin}.

(** The requests the suspended call, if there is one, has still to send:
    two at its first [await], one at its second, none at its third. *)
Definition owes (st : Loop) (n : nat) : Prop :=
  (waiting st = [] ∧ n = 0%nat)
  ∨ (isDeathLoading (world st) = true ∧
     ∃ p k, waiting st = [(p, k)] ∧
       ((∃ selectedId, atFirstAwait selectedId k ∧ n = 2%nat)
        ∨ (∃ selectedId deathResponse, atSecondAwait selectedId deathResponse k ∧ n = 1%nat)
        ∨ (∃ deathResponse recoveredResponse,
             atThirdAwait deathResponse recoveredResponse k ∧ n = 0%nat))).
End accounting.

(** ** A page and a date table for the examples *)

(** A [Date] that knows the dates of [exampleDates]: their time values
    and how the [ko-KR] locale prints them. *)
Definition exampleDates : list (string * (Z * string)) :=
  [("2021-01-01", (1609459200000, "2021. 1. 1."));
   ("2021-01-02", (1609545600000, "2021. 1. 2."))].

Definition exampleDate : DateBuiltin := {|
  Date_getTime s :=
    match list_find (λ e, e.1 = s) exampleDates with
    | Some (_, (_, (t, _))) => Num t
    | None => NaN
    end;
  Date_toLocaleDateString s :=
    match list_find (λ e, e.1 = s) exampleDates with
    | Some (_, (_, (_, text))) => text
    | None => "Invalid Date"
    end;
|}.

Definition entry1 : CountryInfo := {| Cases := 5; Date := "2021-01-01" |}.
Definition entry2 : CountryInfo := {| Cases := 9; Date := "2021-01-02" |}.

Definition country1 : Country :=
  {| Country_name := "Thailand"; Slug := "thailand"; TotalConfirmed := 10;
     TotalDeaths := 1; TotalRecovered := 2 |}.
Definition country2 : Country :=
  {| Country_name := "Viet Nam"; Slug := "vietnam"; TotalConfirmed := 20;
     TotalDeaths := 3; TotalRecovered := 4 |}.

(** The page as it loads: empty lists, nothing requested. *)
Definition emptyWorld : World :=
  {| rankList := []; deathsList := []; recoveredList := [];
     deathsTotal := ""; recoveredTotal := ""; charts := [];
     isDeathLoading := false; infoArrays := ∅; countryArrays := ∅;
     requests := [] |}.

(** The loop at rest on that page. *)
Definition atRest : Loop := {| world := emptyWorld; waiting := [] |}.

(** A click on the item of Thailand, and one on the rank list itself. *)
Definition thailandClick : MouseEvent := {| target := HTMLLIElement "thailand" |}.
Definition listClick : MouseEvent := {| target := HTMLOListElement |}.

(** The page once a click on Thailand has been served: its chart lives on
    the canvas. *)
Definition thailandServed : Loop :=
  @run exampleDate atRest
    [Click thailandClick; Response 0%nat [entry1; entry2];
     Response 1%nat [entry2; entry1]; Response 2%nat [entry1; entry2]].

(** That page with one array of entries in the store, at reference 0. *)
Definition holding (payload : list CountryInfo) : World :=
  (newArray payload emptyWorld).2.

(** That page with the array of a summary in the store, at reference 0. *)
Definition summaryWorld : World :=
  set_countryArrays {[ 0%nat := [country1; country2] ]} emptyWorld.

(** ** Facts on [Array_sort] *)

Section sort_facts.
Context {A : Type} (comparefn : A -> A -> number).

Lemma sort_insert_perm (x : A) (l : list A) :
  sort_insert comparefn x l ≡ₚ x :: l.
Proof.
  induction l as [|y l IH]; simpl; [done|].
  destruct (SortCompare comparefn x y <=? 0); [done|].
  rewrite IH. apply Permutation_swap.
Qed.

Lemma Array_sort_perm (l : list A) : Array_sort comparefn l ≡ₚ l.
Proof.
  induction l as [|x l IH]; simpl; [done|].
  by rewrite sort_insert_perm, IH.
Qed.

Lemma Array_sort_length (l : list A) :
  length (Array_sort comparefn l) = length l.
Proof. by rewrite (Array_sort_perm l). Qed.

Lemma Array_sort_nil_inv (l : list A) : Array_sort comparefn l = [] → l = [].
Proof.
  intros H. apply Permutation_nil_r. rewrite <- H.
  symmetry. apply Array_sort_perm.
Qed.

(** The comparators of [app.ts] are all [b.k - a.k] for a numeric field
    [k]: descending by [key], on the elements [good] where the
    subtraction is a number. *)
Context (key : A → Z) (good : A → Prop).
Hypothesis comparefn_desc :
  ∀ a b, good a → good b → comparefn a b = Num (key b - key a).

Lemma SortCompare_desc a b :
  good a → good b → SortCompare comparefn a b = key b - key a.
Proof. intros Ha Hb. unfold SortCompare. by rewrite comparefn_desc. Qed.

Lemma sort_insert_desc (x : A) (l : list A) :
  good x → Forall good l →
  StronglySorted (desc key) l → StronglySorted (desc key) (sort_insert comparefn x l).
Proof.
  intros Hx Hl Hs. induction Hs as [|y l Hs IH Hy]; simpl.
  { repeat constructor. }
  apply Forall_cons in Hl as [Hgy Hl].
  rewrite SortCompare_desc by done.
  destruct (Z.leb_spec (key y - key x) 0) as [Hle|Hgt].
  - constructor; [by constructor|].
    constructor; [unfold desc; lia|].
    eapply Forall_impl; [apply Hy|]. unfold desc. intros z Hz. simpl in Hz. lia.
  - constructor; [by apply IH|].
    rewrite (sort_insert_perm x l). constructor; [unfold desc; lia|done].
Qed.

Lemma Array_sort_good (l : list A) :
  Forall good l → Forall good (Array_sort comparefn l).
Proof. intros H. by rewrite (Array_sort_perm l). Qed.

Lemma Array_sort_desc (l : list A) :
  Forall good l → StronglySorted (desc key) (Array_sort comparefn l).
Proof.
  induction l as [|x l IH]; simpl; intros Hl; [constructor|].
  apply Forall_cons in Hl as [Hx Hl].
  apply sort_insert_desc; auto using Array_sort_good.
Qed.

Lemma sort_insert_stable (v : Z) (x : A) (l : list A) :
  good x → Forall good l → StronglySorted (desc key) l →
  filter (λ e, key e = v) (sort_insert comparefn x l)
  = filter (λ e, key e = v) (x :: l).
Proof.
  intros Hx Hl Hs. induction Hs as [|y l Hs IH Hy]; simpl; [done|].
  apply Forall_cons in Hl as [Hgy Hl].
  rewrite SortCompare_desc by done.
  destruct (Z.leb_spec (key y - key x) 0) as [Hle|Hgt]; [done|].
  rewrite !filter_cons. rewrite filter_cons in IH. rewrite (IH Hl).
  destruct (decide (key y = v)), (decide (key x = v)); try done. lia.
Qed.

Lemma Array_sort_stable (v : Z) (l : list A) :
  Forall good l →
  filter (λ e, key e = v) (Array_sort comparefn l) = filter (λ e, key e = v) l.
Proof.
  induction l as [|x l IH]; simpl; intros Hl; [done|].
  apply Forall_cons in Hl as [Hx Hl].
  rewrite sort_insert_stable by auto using Array_sort_good, Array_sort_desc.
  rewrite !filter_cons, (IH Hl). done.
Qed.

(** An array already in descending order is left as it is. *)
Lemma Array_sort_sorted (l : list A) :
  Forall good l → StronglySorted (desc key) l → Array_sort comparefn l = l.
Proof.
  intros Hl Hs. induction Hs as [|x l Hs IH Hx]; simpl; [done|].
  apply Forall_cons in Hl as [Hgx Hl]. rewrite (IH Hl).
  destruct Hs as [|y l Hs Hy]; simpl; [done|].
  apply Forall_cons in Hl as [Hgy Hl]. apply Forall_cons in Hx as [Hxy Hx].
  rewrite SortCompare_desc by done. unfold desc in Hxy.
  destruct (Z.leb_spec (key y - key x) 0); [done|lia].
Qed.

(** The first element after the sort has the greatest key. *)
Lemma Array_sort_head (l : list A) (m : A) (rest : list A) :
  Forall good l → Array_sort comparefn l = m :: rest →
  m ∈ l ∧ Forall (λ e, key e <= key m) l.
Proof.
  intros Hl Hm. pose proof (Array_sort_desc l Hl) as Hs.
  pose proof (Array_sort_perm l) as Hp. rewrite Hm in Hs, Hp.
  split; [rewrite <- Hp; left|].
  rewrite <- Hp. apply StronglySorted_inv in Hs as [_ Hrest].
  constructor; [lia|done].
Qed.
(** A list in descending order is determined by its elements of each
    key, in their order. *)
Lemma sorted_stable_unique (l1 l2 : list A) :
  StronglySorted (desc key) l1 → StronglySorted (desc key) l2 →
  (∀ v, filter (λ e, key e = v) l1 = filter (λ e, key e = v) l2) →
  l1 = l2.
Proof.
  intros Hs1. revert l2. induction Hs1 as [|x l1 Hs1 IH Hx]; intros l2 Hs2 Hsame.
  - destruct l2 as [|y l2]; [done|].
    specialize (Hsame (key y)). rewrite filter_nil, filter_cons_True in Hsame; done.
  - destruct Hs2 as [|y l2 Hs2 Hy].
    { specialize (Hsame (key x)). rewrite filter_nil, filter_cons_True in Hsame; done. }
    assert (Hkey : key y = key x).
    { destruct (decide (key y = key x)) as [|Hne]; [done|exfalso].
      assert (Hx2 : x ∈ l2).
      { assert (Hin : x ∈ filter (λ e, key e = key x) (y :: l2)).
        { rewrite <- Hsame, filter_cons_True by done. left. }
        rewrite filter_cons_False in Hin by done.
        by apply list_elem_of_filter in Hin as [_ ?]. }
      assert (Hy1 : y ∈ l1).
      { assert (Hin : y ∈ filter (λ e, key e = key y) (x :: l1)).
        { rewrite Hsame, filter_cons_True by done. left. }
        rewrite filter_cons_False in Hin by done.
        by apply list_elem_of_filter in Hin as [_ ?]. }
      rewrite Forall_forall in Hx, Hy.
      specialize (Hx y Hy1). specialize (Hy x Hx2). unfold desc in Hx, Hy. lia. }
    assert (Heq : x = y).
    { specialize (Hsame (key x)).
      rewrite filter_cons_True in Hsame by done.
      rewrite filter_cons_True in Hsame by done. congruence. }
    subst y. f_equal. apply IH; [done|]. intros v. specialize (Hsame v).
    rewrite !filter_cons in Hsame. destruct (decide (key x = v)); congruence.
Qed.

(** So the sorted, stable arrangement of an array is the one [Array_sort]
    computes. *)
Lemma Array_sort_unique (l l' : list A) :
  Forall good l →
  StronglySorted (desc key) l' →
  (∀ v, filter (λ e, key e = v) l' = filter (λ e, key e = v) l) →
  l' = Array_sort comparefn l.
Proof.
  intros Hl Hs Hsame. apply sorted_stable_unique; [done|by apply Array_sort_desc|].
  intros v. by rewrite Array_sort_stable.
Qed.
End sort_facts.

(** ** Rendering a list *)

Ltac world_eq :=
  intros; repeat match goal with w : World |- _ => destruct w end; reflexivity.

Section task_facts.
Context {A : Type} (li : A → Node).
Context (get : World → list Node) (set : list Node → World → World).
Hypothesis get_set : ∀ v w, get (set v w) = v.
Hypothesis set_set : ∀ v v' w, set v (set v' w) = set v w.
Hypothesis set_get : ∀ w, set (get w) w = w.

(** Appending one [li] per element appends the [li]s in the order of the
    elements. *)
Lemma forEach_appendChild (elements : list A) (w : World) :
  forEach (λ value, modify (λ w, set (appendChild (li value) (get w)) w)) elements w
  = Returned tt (set (get w ++ (li <$> elements)) w).
Proof.
  revert w. induction elements as [|value rest IH]; intros w; simpl.
  - by rewrite app_nil_r, set_get.
  - unfold mbind, Task_bind, modify at 1. simpl. rewrite IH.
    rewrite get_set, set_set. unfold appendChild. by rewrite <- app_assoc.
Qed.
End task_facts.

Section render_facts.
Context `{DateBuiltin}.

(** The two comparators of [app.ts]. *)
Local Abbreviation byDate :=
  (λ a b, number_sub (getUnixTimestamp (Date b)) (getUnixTimestamp (Date a))).
Local Abbreviation byConfirmed :=
  (λ a b : Country, Num (TotalConfirmed b - TotalConfirmed a)).

Lemma byDate_desc (a b : CountryInfo) :
  hasDate a → hasDate b → byDate a b = Num (timeOf b - timeOf a).
Proof.
  unfold hasDate, timeOf. intros Ha Hb.
  destruct (getUnixTimestamp (Date a)), (getUnixTimestamp (Date b)); done.
Qed.

Lemma byConfirmed_desc (a b : Country) :
  True → True → byConfirmed a b = Num (TotalConfirmed b - TotalConfirmed a).
Proof. done. Qed.

Lemma setDeathsList_eq (data : CountryInfoResponse) (w : World) :
  let sorted := Array_sort byDate (infoArrays w !!! data) in
  setDeathsList data w
  = Returned tt (set_deathsList (deathsList w ++ (detailItem "deaths" <$> sorted))
                   (set_infoArrays (<[data := sorted]> (infoArrays w)) w)).
Proof.
  intros sorted. unfold setDeathsList, sortInPlace, mbind, Task_bind, mret, Task_ret.
  simpl. rewrite lookup_total_insert_eq.
  by rewrite (forEach_appendChild (detailItem "deaths") deathsList set_deathsList)
    by world_eq.
Qed.

Lemma setRecoveredList_eq (data : CountryInfoResponse) (w : World) :
  let sorted := Array_sort byDate (infoArrays w !!! data) in
  setRecoveredList data w
  = Returned tt (set_recoveredList (recoveredList w ++ (detailItem "recovered" <$> sorted))
                   (set_infoArrays (<[data := sorted]> (infoArrays w)) w)).
Proof.
  intros sorted. unfold setRecoveredList, sortInPlace, mbind, Task_bind, mret, Task_ret.
  simpl. rewrite lookup_total_insert_eq.
  by rewrite (forEach_appendChild (detailItem "recovered") recoveredList set_recoveredList)
    by world_eq.
Qed.

Lemma setCountryRanksByConfirmedCases_eq (data : CovidSummaryResponse) (w : World) :
  let sorted := Array_sort byConfirmed (countryArrays w !!! Countries data) in
  setCountryRanksByConfirmedCases data w
  = Returned tt (set_rankList (rankList w ++ (rankItem <$> sorted))
                   (set_countryArrays (<[Countries data := sorted]> (countryArrays w)) w)).
Proof.
  intros sorted.
  unfold setCountryRanksByConfirmedCases, sortCountriesInPlace, mbind, Task_bind, mret, Task_ret.
  simpl. rewrite lookup_total_insert_eq.
  by rewrite (forEach_appendChild rankItem rankList set_rankList)
    by world_eq.
Qed.

(** ** The rank list and the detail lists *)

(** C6: the items [setCountryRanksByConfirmedCases] appends to the rank
    list are those of the records in non-increasing order of confirmed
    count, and records with equal counts keep their input order. *)
Theorem rank_list_sorted_stable (data : CovidSummaryResponse) (w : World) :
  ∃ sorted w',
    setCountryRanksByConfirmedCases data w = Returned tt w' ∧
    rankList w' = rankList w ++ (rankItem <$> sorted) ∧
    sorted ≡ₚ countryArrays w !!! Countries data ∧
    StronglySorted (desc TotalConfirmed) sorted ∧
    ∀ n, filter (λ c, TotalConfirmed c = n) sorted
         = filter (λ c, TotalConfirmed c = n) (countryArrays w !!! Countries data).
Proof.
  eexists _, _. split; [apply setCountryRanksByConfirmedCases_eq|].
  assert (Hall : Forall (λ _ : Country, True) (countryArrays w !!! Countries data))
    by by apply Forall_forall.
  split_and!.
  - done.
  - apply Array_sort_perm.
  - by apply (Array_sort_desc _ _ _ byConfirmed_desc).
  - intros n. by apply (Array_sort_stable _ _ _ byConfirmed_desc).
Qed.

(** C7: for entries that have dates, in any order, the items
    [setDeathsList] and [setRecoveredList] append are those of the
    entries in non-increasing order of date, and entries of the same
    date keep their input order. *)
Theorem detail_list_sorted_stable (data : CountryInfoResponse) (w : World) :
  Forall hasDate (infoArrays w !!! data) →
  ∃ sorted,
    sorted ≡ₚ infoArrays w !!! data ∧
    StronglySorted (desc timeOf) sorted ∧
    (∀ t, filter (λ e, timeOf e = t) sorted
          = filter (λ e, timeOf e = t) (infoArrays w !!! data)) ∧
    (∃ w', setDeathsList data w = Returned tt w' ∧
           deathsList w' = deathsList w ++ (detailItem "deaths" <$> sorted)) ∧
    (∃ w', setRecoveredList data w = Returned tt w' ∧
           recoveredList w' = recoveredList w ++ (detailItem "recovered" <$> sorted)).
Proof.
  intros Hdates. exists (Array_sort byDate (infoArrays w !!! data)). split_and!.
  - apply Array_sort_perm.
  - by apply (Array_sort_desc _ _ _ byDate_desc).
  - intros t. by apply (Array_sort_stable _ _ _ byDate_desc).
  - eexists. split; [apply setDeathsList_eq|done].
  - eexists. split; [apply setRecoveredList_eq|done].
Qed.

(** C5, as amended: rendering the rank list keeps the records, each as it
    was, but sorts the array [Countries] in place, so that afterwards it
    holds the same records in non-increasing order of confirmed count;
    its order is kept when it was in that order already, and no other
    array changes. *)
Theorem rank_render_sorts_input_in_place (data : CovidSummaryResponse) (w : World) :
  ∃ w',
    setCountryRanksByConfirmedCases data w = Returned tt w' ∧
    countryArrays w' !!! Countries data
      = Array_sort byConfirmed (countryArrays w !!! Countries data) ∧
    countryArrays w' !!! Countries data ≡ₚ countryArrays w !!! Countries data ∧
    StronglySorted (desc TotalConfirmed) (countryArrays w' !!! Countries data) ∧
    (StronglySorted (desc TotalConfirmed) (countryArrays w !!! Countries data) →
     countryArrays w' !!! Countries data = countryArrays w !!! Countries data) ∧
    (∀ other, other ≠ Countries data →
              countryArrays w' !! other = countryArrays w !! other) ∧
    infoArrays w' = infoArrays w.
Proof.
  eexists. split; [apply setCountryRanksByConfirmedCases_eq|].
  assert (Hall : Forall (λ _ : Country, True) (countryArrays w !!! Countries data))
    by by apply Forall_forall.
  simpl. rewrite lookup_total_insert_eq. split_and!.
  - done.
  - apply Array_sort_perm.
  - by apply (Array_sort_desc _ _ _ byConfirmed_desc).
  - intros Hs. by apply (Array_sort_sorted _ _ _ byConfirmed_desc).
  - intros other Hother. by rewrite lookup_insert_ne.
  - done.
Qed.

(** ** The counters of a country *)

Lemma setTotalDeathsByCountry_eq (data : CountryInfoResponse) (w : World) :
  setTotalDeathsByCountry data w
  = match (infoArrays w !!! data) !! 0%nat with
    | Some first => Returned tt (set_deathsTotal (Number_toString (Cases first)) w)
    | None => Thrown TypeError w
    end.
Proof.
  unfold setTotalDeathsByCountry, mbind, Task_bind. simpl.
  by destruct (infoArrays w !!! data).
Qed.

Lemma setTotalRecoveredByCountry_eq (data : CountryInfoResponse) (w : World) :
  setTotalRecoveredByCountry data w
  = match (infoArrays w !!! data) !! 0%nat with
    | Some first => Returned tt (set_recoveredTotal (Number_toString (Cases first)) w)
    | None => Thrown TypeError w
    end.
Proof.
  unfold setTotalRecoveredByCountry, mbind, Task_bind. simpl.
  by destruct (infoArrays w !!! data).
Qed.

(** C4: on an array without entries [setTotalDeathsByCountry] and
    [setTotalRecoveredByCountry] write nothing: element 0 is missing, and
    reading its [Cases] throws. *)
Theorem country_counter_of_no_entries_throws (data : CountryInfoResponse) (w : World) :
  infoArrays w !!! data = [] →
  setTotalDeathsByCountry data w = Thrown TypeError w ∧
  setTotalRecoveredByCountry data w = Thrown TypeError w.
Proof.
  intros Hempty.
  by rewrite setTotalDeathsByCountry_eq, setTotalRecoveredByCountry_eq, Hempty.
Qed.

(** The counter functions read element 0 of the array as it stands. *)
Lemma setTotalDeathsByCountry_first (data : CountryInfoResponse) (w : World) first rest :
  infoArrays w !!! data = first :: rest →
  setTotalDeathsByCountry data w
  = Returned tt (set_deathsTotal (Number_toString (Cases first)) w).
Proof. intros Hd. by rewrite setTotalDeathsByCountry_eq, Hd. Qed.

(** C8, as amended: [setTotalDeathsByCountry] and
    [setTotalRecoveredByCountry] sort nothing: each writes the count of
    element 0 of the array as it stands. That is the count of an entry of
    the latest date when the array is ordered newest first, and so it is
    once the list of that kind has been rendered from the same array, as
    [handleListClick] does, whatever the order of the entries was. *)
Theorem country_counter_shows_element_zero (data : CountryInfoResponse) (w : World) :
  infoArrays w !!! data ≠ [] →
  Forall hasDate (infoArrays w !!! data) →
  ∃ first latest,
    (infoArrays w !!! data) !! 0%nat = Some first ∧
    setTotalDeathsByCountry data w
    = Returned tt (set_deathsTotal (Number_toString (Cases first)) w) ∧
    setTotalRecoveredByCountry data w
    = Returned tt (set_recoveredTotal (Number_toString (Cases first)) w) ∧
    latest ∈ infoArrays w !!! data ∧
    Forall (λ e, timeOf e <= timeOf latest) (infoArrays w !!! data) ∧
    (StronglySorted (desc timeOf) (infoArrays w !!! data) → first = latest) ∧
    (∃ w', (setDeathsList data;; setTotalDeathsByCountry data) w = Returned tt w' ∧
           deathsTotal w' = Number_toString (Cases latest)) ∧
    (∃ w', (setRecoveredList data;; setTotalRecoveredByCountry data) w = Returned tt w' ∧
           recoveredTotal w' = Number_toString (Cases latest)).
Proof.
  intros Hne Hdates.
  destruct (infoArrays w !!! data) as [|first others] eqn:Hdata; [done|].
  destruct (Array_sort byDate (first :: others)) as [|latest rest] eqn:Hsorted.
  { by apply Array_sort_nil_inv in Hsorted. }
  destruct (Array_sort_head _ _ _ byDate_desc _ _ _ Hdates Hsorted) as [Hin Hmax].
  exists first, latest. split_and!; [done| | |done..| | |].
  - by rewrite setTotalDeathsByCountry_eq, Hdata.
  - by rewrite setTotalRecoveredByCountry_eq, Hdata.
  - intros Hordered.
    rewrite (Array_sort_sorted _ _ _ byDate_desc _ Hdates Hordered) in Hsorted.
    congruence.
  - eexists. unfold mbind, Task_bind. rewrite setDeathsList_eq. simpl.
    rewrite setTotalDeathsByCountry_eq. simpl.
    rewrite lookup_total_insert_eq, Hdata, Hsorted. simpl. done.
  - eexists. unfold mbind, Task_bind. rewrite setRecoveredList_eq. simpl.
    rewrite setTotalRecoveredByCountry_eq. simpl.
    rewrite lookup_total_insert_eq, Hdata, Hsorted. simpl. done.
Qed.

(** ** The chart *)


Lemma setChartData_eq (data : CountryInfoResponse) (w : World) :
  setChartData data w
  = match charts w with
    | [] => Returned tt (set_charts [chartOf (infoArrays w !!! data)] w)
    | _ :: _ => Thrown CanvasInUse w
    end.
Proof.
  unfold setChartData, renderChart, mbind, Task_bind, gets. cbn [Outcome_bind].
  destruct (charts w) eqn:Hcharts; [|done]. unfold modify. by rewrite Hcharts.
Qed.

End render_facts.

(** ** The click handler *)

Section handler_facts.
Context `{DateBuiltin}.

Local Abbreviation byDate :=
  (λ a b, number_sub (getUnixTimestamp (Date b)) (getUnixTimestamp (Date a))).

Lemma fetchCountryInfo_eq (countryCode : option string) (status : CovidStatus) (w : World) :
  fetchCountryInfo countryCode status w
  = Returned (length (requests w)) (requested countryCode status w).
Proof. reflexivity. Qed.

(** A click while the flag is up returns at once. *)
Lemma handleListClick_loading (event : MouseEvent) (w : World) :
  isDeathLoading w = true → handleListClick event w = Returned tt w.
Proof.
  intros Hloading. unfold handleListClick, mbind, Task_bind, gets. simpl.
  by rewrite Hloading.
Qed.

(** A click while the flag is down runs to the first [await]. *)
Lemma handleListClick_idle (event : MouseEvent) (w : World) :
  isDeathLoading w = false →
  ∃ k,
    handleListClick event w = Awaiting (length (requests w)) k (started event w) ∧
    atFirstAwait (selectedIdOf event) k.
Proof.
  intros Hidle. unfold handleListClick, mbind, Task_bind, gets. simpl.
  rewrite Hidle. simpl.
  assert (Hkey :
    match target event with
    | HTMLLIElement id => Some id
    | _ => match target event with
           | HTMLParagraphElement parentElement_id
           | HTMLSpanElement parentElement_id => Some parentElement_id
           | _ => None
           end
    end = selectedIdOf event) by (unfold selectedIdOf; by destruct (target event)).
  rewrite Hkey. eexists. split; [reflexivity|].
  split; [reflexivity|]. intros response1 w1. eexists. split; [reflexivity|].
  split; [reflexivity|]. intros response2 w2. eexists. split; [reflexivity|].
  split; reflexivity.
Qed.

(** *** Tasks that do not suspend *)

Lemma completes_bind {A B : Type} (m : Task A) (f : A → Task B) (w : World) :
  completes (m w) → (∀ a w', completes (f a w')) → completes ((m ≫= f) w).
Proof.
  unfold mbind, Task_bind. intros Hm Hf. destruct (m w); simpl; auto.
Qed.

Lemma endLoadingAnimation_completes (w : World) : completes (endLoadingAnimation w).
Proof.
  unfold endLoadingAnimation. apply completes_bind; [done|intros children w1].
  apply completes_bind.
  - by destruct (removeChild deathSpinner children).
  - intros _ w2. apply completes_bind; [done|intros children' w3].
    by destruct (removeChild recoveredSpinner children').
Qed.

Lemma renderResponses_completes (d r c : CountryInfoResponse) (w : World) :
  completes (renderResponses d r c w).
Proof.
  unfold renderResponses.
  apply completes_bind; [apply endLoadingAnimation_completes|intros _ w1].
  apply completes_bind; [by rewrite setDeathsList_eq|intros _ w2].
  apply completes_bind.
  { rewrite setTotalDeathsByCountry_eq. by destruct (_ !! _). }
  intros _ w3. apply completes_bind; [by rewrite setRecoveredList_eq|intros _ w4].
  apply completes_bind.
  { rewrite setTotalRecoveredByCountry_eq. by destruct (_ !! _). }
  intros _ w5. apply completes_bind; [|done].
  rewrite setChartData_eq. by destruct (charts w5).
Qed.

Lemma park_completes (o : Outcome unit) (others : list (Promise * Continuation)) :
  completes o → park o others = {| world := worldOf o; waiting := others |}.
Proof. by destruct o. Qed.

(** *** One step of the loop *)

Lemma settle_nil (p : Promise) (r : Settled) (w : World) :
  settle p r {| world := w; waiting := [] |} = {| world := w; waiting := [] |}.
Proof. reflexivity. Qed.

Lemma settle_single (p : Promise) (k : Continuation) (r : Settled) (w : World) :
  settle p r {| world := w; waiting := [(p, k)] |} = park (k r w) [].
Proof.
  unfold settle. cbn [waiting world].
  rewrite !filter_cons, !filter_nil. cbn [fst].
  repeat case_decide; done.
Qed.

Lemma settle_other (p q : Promise) (k : Continuation) (r : Settled) (w : World) :
  q ≠ p →
  settle p r {| world := w; waiting := [(q, k)] |} = {| world := w; waiting := [(q, k)] |}.
Proof.
  intros Hne. unfold settle. cbn [waiting world].
  rewrite !filter_cons, !filter_nil. cbn [fst].
  repeat case_decide; done.
Qed.

Lemma step_click_loading (event : MouseEvent) (st : Loop) :
  isDeathLoading (world st) = true → step (Click event) st = st.
Proof.
  intros Hloading. simpl. rewrite handleListClick_loading by done. by destruct st.
Qed.

Lemma step_click_idle (event : MouseEvent) (st : Loop) :
  idle st →
  ∃ k, step (Click event) st
       = {| world := started event (world st);
            waiting := [(length (requests (world st)), k)] |} ∧
       atFirstAwait (selectedIdOf event) k.
Proof.
  intros [Hflag Hwaiting].
  destruct (handleListClick_idle event (world st) Hflag) as (k & Hk & Hfirst).
  exists k. split; [|done]. simpl. by rewrite Hk, Hwaiting.
Qed.

Lemma step_response_unawaited (p : Promise) (payload : list CountryInfo) (st : Loop) :
  p ∉ (waiting st).*1 → step (Response p payload) st = st.
Proof. intros Hp. simpl. by rewrite decide_False. Qed.

Lemma step_response_awaited (p : Promise) (k : Continuation)
    (payload : list CountryInfo) (w : World) :
  step (Response p payload) {| world := w; waiting := [(p, k)] |}
  = park (k (Fulfilled {| data := (newArray payload w).1 |}) (newArray payload w).2) [].
Proof.
  simpl. rewrite decide_True by apply list_elem_of_here. by rewrite settle_single.
Qed.

Lemma step_failure_awaited (p : Promise) (k : Continuation) (w : World) :
  step (Failure p) {| world := w; waiting := [(p, k)] |}
  = park (k (Rejected NetworkError) w) [].
Proof. simpl. by rewrite settle_single. Qed.

Lemma settle_unawaited (p : Promise) (r : Settled) (st : Loop) :
  p ∉ (waiting st).*1 → settle p r st = st.
Proof.
  destruct st as [w suspended]. cbn [waiting]. intros Hp. unfold settle.
  cbn [waiting world].
  assert (Hnone : filter (λ e : Promise * Continuation, e.1 = p) suspended = []
                  ∧ filter (λ e : Promise * Continuation, e.1 ≠ p) suspended = suspended).
  { induction suspended as [|[q k] rest IH]; [done|].
    rewrite fmap_cons, not_elem_of_cons in Hp. destruct Hp as [Hq Hrest].
    destruct (IH Hrest) as [IH1 IH2]. rewrite !filter_cons, IH1, IH2. cbn [fst] in *.
    repeat case_decide; done. }
  destruct Hnone as [-> ->]. done.
Qed.

Lemma step_failure_unawaited (p : Promise) (st : Loop) :
  p ∉ (waiting st).*1 → step (Failure p) st = st.
Proof. apply settle_unawaited. Qed.

(** *** The guard *)

Lemma serving_inv (st : Loop) :
  serving st → ∃ p k, waiting st = [(p, k)] ∧ ∀ e w, k (Rejected e) w = Thrown e w.
Proof. intros [p k ? Hw [Hk _]|p k ? ? Hw [Hk _]|p k ? ? Hw [Hk _]]; eauto. Qed.

(** A response to the one suspended call takes it to its next [await],
    or to its end. *)
Lemma serving_response (p : Promise) (k : Continuation) (response : AxiosResponse)
    (w0 w : World) :
  serving {| world := w0; waiting := [(p, k)] |} →
  isDeathLoading w = true →
  guarded (park (k (Fulfilled response) w) []).
Proof.
  intros Hserving Hflag.
  destruct Hserving as [p' k' key Hw [_ Hk]|p' k' key d Hw [_ Hk]|p' k' d r Hw [_ Hk]];
    cbn [waiting] in Hw; simplify_eq.
  - destruct (Hk response w) as (k2 & -> & Hk2).
    right. split; [done|]. eapply serving_second; [reflexivity|done].
  - destruct (Hk response w) as (k3 & -> & Hk3).
    right. split; [done|]. eapply serving_third; [reflexivity|done].
  - rewrite Hk, park_completes by apply renderResponses_completes. by left.
Qed.

Lemma guarded_step (e : Event) (st : Loop) : guarded st → guarded (step e st).
Proof.
  intros [Hnone|[Hflag Hserving]].
  - (* no call is suspended *)
    destruct e as [event|p payload|p].
    + destruct (isDeathLoading (world st)) eqn:Hloading.
      * rewrite step_click_loading by done. by left.
      * destruct (step_click_idle event st) as (k & -> & Hk); [done|].
        right. split; [done|]. eapply serving_first; [reflexivity|done].
    + rewrite step_response_unawaited; [by left|]. rewrite Hnone. apply not_elem_of_nil.
    + rewrite step_failure_unawaited; [by left|]. rewrite Hnone. apply not_elem_of_nil.
  - (* one call is suspended and the flag is up *)
    destruct (serving_inv st Hserving) as (p & k & Hwait & Hk).
    destruct e as [event|q payload|q].
    + rewrite step_click_loading by done. by right.
    + destruct (decide (q = p)) as [->|Hne].
      2:{ rewrite step_response_unawaited; [by right|].
          rewrite Hwait. by intros ?%list_elem_of_singleton. }
      destruct st as [w suspended]. cbn [waiting world] in *. subst suspended.
      rewrite step_response_awaited. by apply (serving_response p k _ w).
    + destruct (decide (q = p)) as [->|Hne].
      2:{ rewrite step_failure_unawaited; [by right|].
          rewrite Hwait. by intros ?%list_elem_of_singleton. }
      destruct st as [w suspended]. cbn [waiting world] in *. subst suspended.
      rewrite step_failure_awaited, Hk. by left.
Qed.

Lemma guarded_run (events : list Event) (st : Loop) : guarded st → guarded (run st events).
Proof.
  revert st. induction events as [|e events IH]; intros st Hst; [done|].
  simpl. apply IH. by apply guarded_step.
Qed.

Lemma guarded_waiting (st : Loop) : guarded st → (length (waiting st) ≤ 1)%nat.
Proof.
  intros [->|[_ Hserving]]; [simpl; lia|].
  destruct Hserving as [? ? ? -> _|? ? ? ? -> _|? ? ? ? -> _]; done.
Qed.

(** C2: a click delivered while the flag is up changes nothing: the call
    returns at once, no request is sent, no list is cleared, no item is
    appended and no call is suspended. So from the loop at rest, whatever
    events arrive, at most one call of [handleListClick] is suspended on
    its fetches, and one is suspended only while the flag is up. *)
Theorem click_while_loading_is_ignored
    (st0 st : Loop) (events : list Event) (event : MouseEvent) :
  idle st0 →
  isDeathLoading (world st) = true →
  (handleListClick event (world st) = Returned tt (world st) ∧
   step (Click event) st = st) ∧
  (length (waiting (run st0 events)) ≤ 1)%nat ∧
  (waiting (run st0 events) ≠ [] → isDeathLoading (world (run st0 events)) = true).
Proof.
  intros [Hflag Hwaiting] Hloading.
  assert (Hguarded : guarded (run st0 events)) by (apply guarded_run; by left).
  split_and!.
  - by apply handleListClick_loading.
  - by apply step_click_loading.
  - by apply guarded_waiting.
  - by destruct Hguarded as [?|[? _]].
Qed.

(** *** A click served to its end *)

Lemma removeChild_only (node : Node) : removeChild node [node] = Some [].
Proof.
  unfold removeChild. rewrite decide_True by apply list_elem_of_here.
  rewrite filter_cons, filter_nil. by rewrite decide_False by (by intros ?).
Qed.

Lemma endLoadingAnimation_spinners (w : World) :
  deathsList w = [deathSpinner] → recoveredList w = [recoveredSpinner] →
  endLoadingAnimation w = Returned tt (set_recoveredList [] (set_deathsList [] w)).
Proof.
  intros Hd Hr. unfold endLoadingAnimation, mbind, Task_bind, gets. cbn [Outcome_bind].
  rewrite Hd, removeChild_only. cbn [Outcome_bind modify recoveredList set_deathsList].
  rewrite Hr, removeChild_only. reflexivity.
Qed.

Lemma worldOf_bind {A B : Type} (m : Task A) (f : A → Task B) (w : World) :
  worldOf ((m ≫= f) w)
  = match m w with
    | Returned a w' => worldOf (f a w')
    | Thrown _ w' | Awaiting _ _ w' => w'
    end.
Proof. unfold mbind, Task_bind. by destruct (m w). Qed.

Lemma renderResponses_deathsList (d r c : CountryInfoResponse) (w : World) :
  deathsList w = [deathSpinner] → recoveredList w = [recoveredSpinner] →
  deathsList (worldOf (renderResponses d r c w))
  = detailItem "deaths" <$> Array_sort byDate (infoArrays w !!! d).
Proof.
  intros Hd Hr. unfold renderResponses.
  rewrite worldOf_bind, endLoadingAnimation_spinners by done.
  rewrite worldOf_bind, setDeathsList_eq.
  rewrite worldOf_bind, setTotalDeathsByCountry_eq.
  destruct (_ !! 0%nat); [|done].
  rewrite worldOf_bind, setRecoveredList_eq.
  rewrite worldOf_bind, setTotalRecoveredByCountry_eq.
  destruct (_ !! 0%nat); [|done].
  rewrite worldOf_bind, setChartData_eq. by destruct (charts _).
Qed.

Lemma newArray_read (payload : list CountryInfo) (w : World) :
  infoArrays (newArray payload w).2 !!! (newArray payload w).1 = payload.
Proof. unfold newArray. simpl. apply lookup_total_insert_eq. Qed.

Lemma newArray_keeps (payload : list CountryInfo) (w : World) (array : ref) :
  array ∈ dom (infoArrays w) →
  array ∈ dom (infoArrays (newArray payload w).2) ∧
  infoArrays (newArray payload w).2 !!! array = infoArrays w !!! array.
Proof.
  intros Hin. unfold newArray. simpl. split.
  - rewrite dom_insert. set_solver.
  - apply lookup_total_insert_ne. intros <-. by apply (is_fresh (dom (infoArrays w))).
Qed.

Lemma newArray_dom (payload : list CountryInfo) (w : World) :
  (newArray payload w).1 ∈ dom (infoArrays (newArray payload w).2).
Proof. unfold newArray. simpl. rewrite dom_insert. set_solver. Qed.

Lemma run_snoc (st : Loop) (events : list Event) (e : Event) :
  run st (events ++ [e]) = step e (run st events).
Proof. unfold run. by rewrite foldl_app. Qed.

Lemma length_requested (key : option string) (status : CovidStatus) (w : World) :
  length (requests (requested key status w)) = S (length (requests w)).
Proof. simpl. rewrite length_app. simpl. lia. Qed.

(** A click at rest and the three responses to its requests, step by
    step. *)
Lemma click_served (st : Loop) (event : MouseEvent) (d r c : list CountryInfo) :
  idle st →
  let p := length (requests (world st)) in
  let key := selectedIdOf event in
  let w1 := started event (world st) in
  let w2 := requested key Recovered (newArray d w1).2 in
  let w3 := requested key Confirmed (newArray r w2).2 in
  ∃ k1 k2 k3,
    (run st [Click event] = {| world := w1; waiting := [(p, k1)] |} ∧
     run st [Click event; Response p d] = {| world := w2; waiting := [(S p, k2)] |} ∧
     run st [Click event; Response p d; Response (S p) r]
     = {| world := w3; waiting := [(S (S p), k3)] |} ∧
     run st [Click event; Response p d; Response (S p) r; Response (S (S p)) c]
     = park (renderResponses (newArray d w1).1 (newArray r w2).1 (newArray c w3).1
               (newArray c w3).2) []) ∧
    (∀ e w, k1 (Rejected e) w = Thrown e w) ∧
    (∀ e w, k2 (Rejected e) w = Thrown e w) ∧
    (∀ e w, k3 (Rejected e) w = Thrown e w).
Proof.
  intros Hidle p key w1 w2 w3.
  destruct (step_click_idle event st Hidle) as (k1 & Hst1 & Hrej1 & Hk1).
  destruct (Hk1 {| data := (newArray d w1).1 |} (newArray d w1).2)
    as (k2 & Hst2 & Hrej2 & Hk2).
  destruct (Hk2 {| data := (newArray r w2).1 |} (newArray r w2).2)
    as (k3 & Hst3 & Hrej3 & Hk3).
  assert (Hp2 : length (requests (newArray d w1).2) = S p) by apply length_requested.
  assert (Hp3 : length (requests (newArray r w2).2) = S (S p)).
  { unfold w2. change (requests (newArray r ?w).2) with (requests w).
    by rewrite length_requested, Hp2. }
  rewrite Hp2 in Hst2. rewrite Hp3 in Hst3.
  exists k1, k2, k3. split; [|done].
  subst p key w1 w2 w3. unfold run. cbn [foldl]. rewrite Hst1.
  rewrite step_response_awaited, Hst2. cbn [park app].
  rewrite step_response_awaited, Hst3. cbn [park app].
  rewrite step_response_awaited, Hk3. done.
Qed.

Lemma endLoadingAnimation_eq (w : World) :
  endLoadingAnimation w
  = match removeChild deathSpinner (deathsList w) with
    | Some rest =>
        match removeChild recoveredSpinner (recoveredList w) with
        | Some rest' => Returned tt (set_recoveredList rest' (set_deathsList rest w))
        | None => Thrown NotFoundError (set_deathsList rest w)
        end
    | None => Thrown NotFoundError w
    end.
Proof.
  unfold endLoadingAnimation, mbind, Task_bind, gets. cbn [Outcome_bind].
  destruct (removeChild deathSpinner (deathsList w)); [|done].
  cbn [Outcome_bind modify recoveredList set_deathsList].
  by destruct (removeChild recoveredSpinner (recoveredList w)).
Qed.

(** The rendering sends no request. *)
Lemma renderResponses_requests (d r c : CountryInfoResponse) (w : World) :
  requests (worldOf (renderResponses d r c w)) = requests w.
Proof.
  unfold renderResponses.
  rewrite worldOf_bind, endLoadingAnimation_eq.
  destruct (removeChild _ _); [|done]. destruct (removeChild _ _); [|done].
  rewrite worldOf_bind, setDeathsList_eq.
  rewrite worldOf_bind, setTotalDeathsByCountry_eq.
  destruct (_ !! 0%nat); [|done].
  rewrite worldOf_bind, setRecoveredList_eq.
  rewrite worldOf_bind, setTotalRecoveredByCountry_eq.
  destruct (_ !! 0%nat); [|done].
  rewrite worldOf_bind, setChartData_eq. by destruct (charts _).
Qed.

(** Once the flag is up and no call is suspended, nothing moves any
    more. *)
Lemma locked_forever (st : Loop) (later : list Event) :
  isDeathLoading (world st) = true → waiting st = [] → run st later = st.
Proof.
  intros Hflag Hnone. induction later as [|e later IH] using rev_ind; [done|].
  rewrite run_snoc, IH. destruct e as [event|p payload|p].
  - by apply step_click_loading.
  - apply step_response_unawaited. rewrite Hnone. apply not_elem_of_nil.
  - apply step_failure_unawaited. rewrite Hnone. apply not_elem_of_nil.
Qed.

Lemma pending_started (event : MouseEvent) (w : World) : pending w (started event w).
Proof. by repeat split. Qed.

Lemma pending_requested (key : option string) (status : CovidStatus)
    (payload : list CountryInfo) (before w : World) :
  pending before w → pending before (requested key status (newArray payload w).2).
Proof. intros Hp. exact Hp. Qed.

Lemma newArray_fresh (payload : list CountryInfo) (w : World) :
  (newArray payload w).1 ∉ dom (infoArrays w).
Proof. apply is_fresh. Qed.

(** With the spinners in place and entries in the arrays of the deaths
    and of the recovered, the rendering runs to the chart: the lists and
    the counters are written; then the chart is drawn and the flag taken
    down when the canvas is free, and [new Chart] throws when it is not. *)
Lemma renderResponses_rendered (d r c : CountryInfoResponse) (w : World)
    (latestD latestR : CountryInfo) (restD restR : list CountryInfo) :
  deathsList w = [deathSpinner] → recoveredList w = [recoveredSpinner] →
  d ≠ r → d ≠ c → r ≠ c →
  Array_sort byDate (infoArrays w !!! d) = latestD :: restD →
  Array_sort byDate (infoArrays w !!! r) = latestR :: restR →
  ∃ w',
    renderResponses d r c w
    = match charts w with
      | [] => Returned tt (set_isDeathLoading false
                             (set_charts [chartOf (infoArrays w !!! c)] w'))
      | _ :: _ => Thrown CanvasInUse w'
      end ∧
    isDeathLoading w' = isDeathLoading w ∧
    deathsList w' = detailItem "deaths" <$> latestD :: restD ∧
    deathsTotal w' = Number_toString (Cases latestD) ∧
    recoveredList w' = detailItem "recovered" <$> latestR :: restR ∧
    recoveredTotal w' = Number_toString (Cases latestR) ∧
    charts w' = charts w ∧
    requests w' = requests w ∧
    rankList w' = rankList w.
Proof.
  intros Hd Hr Hdr Hdc Hrc HsortD HsortR.
  unfold renderResponses, mbind, Task_bind.
  rewrite endLoadingAnimation_spinners by done. cbn [Outcome_bind].
  rewrite setDeathsList_eq. cbn [Outcome_bind].
  rewrite setTotalDeathsByCountry_eq.
  cbn [infoArrays set_deathsList set_recoveredList set_infoArrays].
  rewrite lookup_total_insert_eq, HsortD. cbn [lookup list_lookup Outcome_bind].
  rewrite setRecoveredList_eq. cbn [Outcome_bind].
  rewrite setTotalRecoveredByCountry_eq.
  cbn [infoArrays set_deathsList set_recoveredList set_infoArrays set_deathsTotal].
  rewrite lookup_total_insert_eq, lookup_total_insert_ne, HsortR by done.
  cbn [lookup list_lookup Outcome_bind].
  rewrite setChartData_eq.
  cbn [charts infoArrays set_deathsList set_recoveredList set_infoArrays set_deathsTotal
       set_recoveredTotal].
  rewrite !lookup_total_insert_ne by done.
  destruct (charts w) eqn:Hcharts; cbn [Outcome_bind modify];
    (eexists; split; [reflexivity|]; by repeat split).
Qed.

(** The arrays of the three responses of a call are three objects, and
    each holds its payload when the third has arrived. *)
Lemma three_arrays (d r c : list CountryInfo) (key : option string) (w1 : World) :
  let a1 := newArray d w1 in
  let a2 := newArray r (requested key Recovered a1.2) in
  let a3 := newArray c (requested key Confirmed a2.2) in
  (a1.1 ≠ a2.1 ∧ a1.1 ≠ a3.1 ∧ a2.1 ≠ a3.1) ∧
  infoArrays a3.2 !!! a1.1 = d ∧
  infoArrays a3.2 !!! a2.1 = r ∧
  infoArrays a3.2 !!! a3.1 = c.
Proof.
  intros a1 a2 a3.
  pose proof (newArray_dom d w1) as Hin1. fold a1 in Hin1.
  pose proof (newArray_fresh r (requested key Recovered a1.2)) as Hout2. fold a2 in Hout2.
  pose proof (newArray_dom r (requested key Recovered a1.2)) as Hin2. fold a2 in Hin2.
  pose proof (newArray_fresh c (requested key Confirmed a2.2)) as Hout3. fold a3 in Hout3.
  destruct (newArray_keeps r (requested key Recovered a1.2) a1.1 Hin1) as [Hin12 Hread12].
  fold a2 in Hin12, Hread12.
  destruct (newArray_keeps c (requested key Confirmed a2.2) a1.1 Hin12) as [_ Hread13].
  destruct (newArray_keeps c (requested key Confirmed a2.2) a2.1 Hin2) as [_ Hread23].
  fold a3 in Hread13, Hread23.
  split_and!.
  - intros Heq. apply Hout2. by rewrite <- Heq.
  - intros Heq. apply Hout3. by rewrite <- Heq.
  - intros Heq. apply Hout3. by rewrite <- Heq.
  - etrans; [exact Hread13|]. etrans; [exact Hread12|]. apply newArray_read.
  - etrans; [exact Hread23|]. apply newArray_read.
  - apply newArray_read.
Qed.

(** A click at rest whose three requests are answered, the deaths and
    the recovered with entries: the lists are rendered in the order of the
    sort and the counters show the first entry of each list. Then, on a
    free canvas, the chart is drawn and the loop is at rest again; on a
    canvas in use the call has thrown, and the flag is up for good. *)
Lemma click_rendered (st : Loop) (event : MouseEvent) (d r c : list CountryInfo)
    (latestD latestR : CountryInfo) (restD restR : list CountryInfo) :
  idle st →
  Array_sort byDate d = latestD :: restD →
  Array_sort byDate r = latestR :: restR →
  let p := length (requests (world st)) in
  let st4 := run st [Click event; Response p d; Response (S p) r; Response (S (S p)) c] in
  waiting st4 = [] ∧
  deathsList (world st4) = detailItem "deaths" <$> latestD :: restD ∧
  deathsTotal (world st4) = Number_toString (Cases latestD) ∧
  recoveredList (world st4) = detailItem "recovered" <$> latestR :: restR ∧
  recoveredTotal (world st4) = Number_toString (Cases latestR) ∧
  rankList (world st4) = rankList (world st) ∧
  match charts (world st) with
  | [] => isDeathLoading (world st4) = false ∧ charts (world st4) = [chartOf c]
  | _ :: _ => isDeathLoading (world st4) = true ∧ charts (world st4) = charts (world st)
  end.
Proof.
  intros Hidle HsortD HsortR p st4.
  destruct (click_served st event d r c Hidle) as (k1 & k2 & k3 & (_ & _ & _ & H4) & _).
  subst p st4. rewrite H4. clear H4.
  destruct (three_arrays d r c (selectedIdOf event) (started event (world st)))
    as ((Hdr & Hdc & Hrc) & Hread1 & Hread2 & Hread3).
  edestruct (renderResponses_rendered
    (newArray d (started event (world st))).1
    (newArray r (requested (selectedIdOf event) Recovered
                   (newArray d (started event (world st))).2)).1
    (newArray c (requested (selectedIdOf event) Confirmed
       (newArray r (requested (selectedIdOf event) Recovered
                      (newArray d (started event (world st))).2)).2)).1
    (newArray c (requested (selectedIdOf event) Confirmed
       (newArray r (requested (selectedIdOf event) Recovered
                      (newArray d (started event (world st))).2)).2)).2)
    as (w' & -> & Hflag & HdL & HdT & HrL & HrT & Hcharts & _ & Hrank);
    [done|done|exact Hdr|exact Hdc|exact Hrc| | |].
  - etrans; [|exact HsortD]. f_equal. exact Hread1.
  - etrans; [|exact HsortR]. f_equal. exact Hread2.
  - rewrite Hread3. cbn [charts newArray snd set_infoArrays requested set_requests started
                         set_isDeathLoading set_recoveredList set_deathsList].
    cbn [charts newArray snd set_infoArrays requested set_requests started
         set_isDeathLoading set_recoveredList set_deathsList] in Hcharts, Hflag.
    destruct (charts (world st)); cbn [park world waiting]; by split_and!.
Qed.

(** C1, as amended: the three requests go out one after another. At the
    click only the request for the deaths is sent, and the call waits for
    it; the request for the recovered is sent when the deaths have arrived,
    and the request for the confirmed when the recovered have arrived.
    Until the third response has arrived the page shows the spinners and
    nothing of the click is rendered; with the third response the call
    ends and the deaths list is rendered. *)
Theorem fetches_are_issued_one_after_another
    (st : Loop) (event : MouseEvent) (d r c : list CountryInfo) :
  idle st →
  let p := length (requests (world st)) in
  let key := selectedIdOf event in
  let st1 := run st [Click event] in
  let st2 := run st [Click event; Response p d] in
  let st3 := run st [Click event; Response p d; Response (S p) r] in
  let st4 := run st [Click event; Response p d; Response (S p) r; Response (S (S p)) c] in
  (requests (world st1) = requests (world st) ++ [countryUrl key Deaths] ∧
   (waiting st1).*1 = [p] ∧ pending (world st) (world st1)) ∧
  (requests (world st2)
   = requests (world st) ++ [countryUrl key Deaths; countryUrl key Recovered] ∧
   (waiting st2).*1 = [S p] ∧ pending (world st) (world st2)) ∧
  (requests (world st3)
   = requests (world st)
     ++ [countryUrl key Deaths; countryUrl key Recovered; countryUrl key Confirmed] ∧
   (waiting st3).*1 = [S (S p)] ∧ pending (world st) (world st3)) ∧
  (requests (world st4) = requests (world st3) ∧
   waiting st4 = [] ∧
   deathsList (world st4) = detailItem "deaths" <$> Array_sort byDate d).
Proof.
  intros Hidle p key st1 st2 st3 st4.
  destruct (click_served st event d r c Hidle)
    as (k1 & k2 & k3 & (H1 & H2 & H3 & H4) & _).
  subst p key st1 st2 st3 st4. rewrite H1, H2, H3, H4. clear H1 H2 H3 H4.
  rewrite park_completes by apply renderResponses_completes.
  cbn [world waiting fmap list_fmap fst].
  split_and!; try done.
  - simpl. by rewrite <- app_assoc.
  - simpl. by rewrite <- !app_assoc.
  - by rewrite renderResponses_requests.
  - rewrite renderResponses_deathsList by done.
    destruct (three_arrays d r c (selectedIdOf event) (started event (world st)))
      as (_ & Hread & _).
    by rewrite Hread.
Qed.

(** The counters after the third response to a click: each shows the
    count of an entry of the latest date among those received, whether or
    not the chart could be drawn afterwards. *)
Lemma click_counters_show_latest
    (st : Loop) (event : MouseEvent) (d r c : list CountryInfo) :
  idle st →
  d ≠ [] → r ≠ [] → Forall hasDate d → Forall hasDate r →
  let p := length (requests (world st)) in
  let st4 := run st [Click event; Response p d; Response (S p) r; Response (S (S p)) c] in
  ∃ latestD latestR,
    (latestD ∈ d ∧ Forall (λ e, timeOf e <= timeOf latestD) d ∧
     deathsTotal (world st4) = Number_toString (Cases latestD)) ∧
    (latestR ∈ r ∧ Forall (λ e, timeOf e <= timeOf latestR) r ∧
     recoveredTotal (world st4) = Number_toString (Cases latestR)) ∧
    waiting st4 = [].
Proof.
  intros Hidle Hd Hr HdatesD HdatesR p st4.
  destruct (Array_sort byDate d) as [|latestD restD] eqn:HsortD.
  { by apply Array_sort_nil_inv in HsortD. }
  destruct (Array_sort byDate r) as [|latestR restR] eqn:HsortR.
  { by apply Array_sort_nil_inv in HsortR. }
  destruct (Array_sort_head _ _ _ byDate_desc _ _ _ HdatesD HsortD) as [HinD HmaxD].
  destruct (Array_sort_head _ _ _ byDate_desc _ _ _ HdatesR HsortR) as [HinR HmaxR].
  destruct (click_rendered st event d r c _ _ _ _ Hidle HsortD HsortR)
    as (Hnone & _ & HtotalD & _ & HtotalR & _).
  by exists latestD, latestR.
Qed.

(** C10: at rest, a click on the rank list itself, outside its items, is
    served like any other: the key is [undefined], both detail lists are
    cleared and get their spinners, the flag goes up, and the three
    requests go out (each when the one before it has been answered) for
    the country [undefined]. *)
Theorem click_outside_items_is_served (st : Loop) (d r : list CountryInfo) :
  idle st →
  let event := {| target := HTMLOListElement |} in
  let p := length (requests (world st)) in
  let st1 := run st [Click event] in
  let st2 := run st [Click event; Response p d] in
  let st3 := run st [Click event; Response p d; Response (S p) r] in
  selectedIdOf event = None ∧
  (∃ k, handleListClick event (world st) = Awaiting p k (world st1)) ∧
  pending (world st) (world st1) ∧
  requests (world st1)
  = requests (world st) ++ ["https://api.covid19api.com/country/undefined/status/deaths"] ∧
  requests (world st2)
  = requests (world st) ++ ["https://api.covid19api.com/country/undefined/status/deaths";
                            "https://api.covid19api.com/country/undefined/status/recovered"] ∧
  requests (world st3)
  = requests (world st) ++ ["https://api.covid19api.com/country/undefined/status/deaths";
                            "https://api.covid19api.com/country/undefined/status/recovered";
                            "https://api.covid19api.com/country/undefined/status/confirmed"].
Proof.
  intros Hidle event p st1 st2 st3.
  destruct (click_served st event d r [] Hidle)
    as (k1 & k2 & k3 & (H1 & H2 & H3 & _) & _).
  destruct (handleListClick_idle event (world st) (proj1 Hidle)) as (k & Hk & _).
  subst p st1 st2 st3. rewrite H1, H2, H3. clear H1 H2 H3.
  cbn [world]. split_and!; try done.
  - by exists k.
  - simpl. by rewrite <- app_assoc.
  - simpl. by rewrite <- !app_assoc.
Qed.

(** C3: when the first, the second or the third request of a click fails
    (the ones before it answered), nothing of the click is rendered: the
    page stays as the click left it, the detail lists cleared and showing
    their spinners, the flag up, counters, charts and rank list as before
    the click. No call is suspended any more, and nothing that comes
    later moves the loop: the flag stays up and every click is ignored. *)
Theorem failed_fetch_locks_the_page
    (st : Loop) (event : MouseEvent) (arrived : list (list CountryInfo)) :
  idle st →
  (length arrived < 3)%nat →
  let p := length (requests (world st)) in
  let st' := run st (Click event :: responses p arrived
                       ++ [Failure (length arrived + p)%nat]) in
  pending (world st) (world st') ∧
  waiting st' = [] ∧
  (∀ later, run st' later = st') ∧
  (∀ later event', step (Click event') (run st' later) = st').
Proof.
  intros Hidle Hlen p st'.
  assert (Hlocked : pending (world st) (world st') ∧ waiting st' = []).
  { subst p st'.
    destruct arrived as [|d [|r [|c arrived]]]; [| | |simpl in Hlen; lia].
    - destruct (click_served st event [] [] [] Hidle)
        as (k1 & k2 & k3 & (H1 & _) & Hrej1 & _).
      change (run st (Click event :: responses _ [] ++ [Failure ?q]))
        with (run st ([Click event] ++ [Failure q])).
      rewrite run_snoc, H1. cbn [length Nat.add].
      rewrite step_failure_awaited, Hrej1. done.
    - destruct (click_served st event d [] [] Hidle)
        as (k1 & k2 & k3 & (_ & H2 & _) & _ & Hrej2 & _).
      change (run st (Click event :: responses ?p [d] ++ [Failure ?q]))
        with (run st ([Click event; Response p d] ++ [Failure q])).
      rewrite run_snoc, H2. cbn [length Nat.add].
      rewrite step_failure_awaited, Hrej2. done.
    - destruct (click_served st event d r [] Hidle)
        as (k1 & k2 & k3 & (_ & _ & H3 & _) & _ & _ & Hrej3).
      change (run st (Click event :: responses ?p [d; r] ++ [Failure ?q]))
        with (run st ([Click event; Response p d; Response (S p) r] ++ [Failure q])).
      rewrite run_snoc, H3. cbn [length Nat.add].
      rewrite step_failure_awaited, Hrej3. done. }
  destruct Hlocked as [Hpending Hnone].
  assert (Hforever : ∀ later, run st' later = st').
  { intros later. apply locked_forever; [apply Hpending|done]. }
  split_and!; [done..|].
  intros later event'. rewrite Hforever. apply step_click_loading, Hpending.
Qed.
End handler_facts.

(** ** The theorems at work on the example page *)

(** The scenario of a click on Thailand: three requests, one after
    another; then the lists newest first, the counters of the newest
    entries, and the chart. *)
Example thailand_scenario :
  let st := @run exampleDate atRest
              [Click thailandClick; Response 0%nat [entry1; entry2];
               Response 1%nat [entry2; entry1]; Response 2%nat [entry1; entry2]] in
  requests (world st)
  = ["https://api.covid19api.com/country/thailand/status/deaths";
     "https://api.covid19api.com/country/thailand/status/recovered";
     "https://api.covid19api.com/country/thailand/status/confirmed"] ∧
  deathsList (world st)
  = [DetailItem "deaths" "9" "2021. 1. 2"; DetailItem "deaths" "5" "2021. 1. 1"] ∧
  recoveredList (world st)
  = [DetailItem "recovered" "9" "2021. 1. 2"; DetailItem "recovered" "5" "2021. 1. 1"] ∧
  deathsTotal (world st) = "9" ∧
  recoveredTotal (world st) = "9" ∧
  charts (world st)
  = [{| labels := [" 1. 1"; " 1. 2"];
        dataset_label := "Confirmed for the last two weeks";
        dataset_data := [5; 9] |}] ∧
  isDeathLoading (world st) = false ∧
  waiting st = [].
Proof. vm_compute. by repeat split. Qed.

(** The counter of a country shows 9 for the two entries of the spec in
    either order, once the list has been rendered; the counter function
    by itself, given the entries oldest first, shows 5. *)
Example country_counter_example :
  (∃ w, (@setDeathsList exampleDate 0%nat;; setTotalDeathsByCountry 0%nat)
          (holding [entry1; entry2]) = Returned tt w ∧ deathsTotal w = "9") ∧
  (∃ w, (@setDeathsList exampleDate 0%nat;; setTotalDeathsByCountry 0%nat)
          (holding [entry2; entry1]) = Returned tt w ∧ deathsTotal w = "9") ∧
  (∃ w, setTotalDeathsByCountry 0%nat (holding [entry1; entry2]) = Returned tt w ∧
        deathsTotal w = "5").
Proof. split_and!; eexists; (split; [vm_compute; reflexivity|reflexivity]). Qed.

(** Of twenty entries, counted 1 to 20, the chart plots the last fourteen;
    of five, all five. *)
Example chart_example :
  (∃ w, @setChartData exampleDate 0%nat
          (holding ((λ n, {| Cases := n; Date := "2021-01-01" |}) <$> seqZ 1 20))
        = Returned tt w ∧
        dataset_data <$> charts w = [seqZ 7 14]) ∧
  (∃ w, @setChartData exampleDate 0%nat
          (holding ((λ n, {| Cases := n; Date := "2021-01-01" |}) <$> seqZ 1 5))
        = Returned tt w ∧
        dataset_data <$> charts w = [seqZ 1 5]).
Proof. split; eexists; (split; [vm_compute; reflexivity|reflexivity]). Qed.

(** A second click on the page that has served one: the lists and the
    counters are those of the second click, the chart is still the one of
    the first, and the flag stays up with no call suspended. *)
Example second_click_scenario :
  let st := @run exampleDate thailandServed
              [Click thailandClick; Response 3%nat [entry1]; Response 4%nat [entry2];
               Response 5%nat [entry2]] in
  @setChartData exampleDate 2%nat (world thailandServed)
  = Thrown CanvasInUse (world thailandServed) ∧
  deathsList (world st) = [DetailItem "deaths" "5" "2021. 1. 1"] ∧
  recoveredList (world st) = [DetailItem "recovered" "9" "2021. 1. 2"] ∧
  deathsTotal (world st) = "5" ∧
  recoveredTotal (world st) = "9" ∧
  charts (world st)
  = [{| labels := [" 1. 1"; " 1. 2"];
        dataset_label := "Confirmed for the last two weeks";
        dataset_data := [5; 9] |}] ∧
  isDeathLoading (world st) = true ∧
  waiting st = [].
Proof. vm_compute. by repeat split. Qed.

(** An array without entries leaves the flag up for good. *)
Example empty_response_locks_the_page :
  let st := @run exampleDate atRest
              [Click thailandClick; Response 0%nat []; Response 1%nat [entry1];
               Response 2%nat [entry1]] in
  isDeathLoading (world st) = true ∧ waiting st = [] ∧
  deathsList (world st) = [] ∧ deathsTotal (world st) = "".
Proof. vm_compute. by repeat split. Qed.

Lemma idle_atRest : idle atRest.
Proof. by split. Qed.

Lemma detail_list_sorted_stable_witness :
  Forall (@hasDate exampleDate) (infoArrays (holding [entry1; entry2]) !!! 0%nat) ∧
  ∃ sorted,
    sorted ≡ₚ infoArrays (holding [entry1; entry2]) !!! 0%nat ∧
    StronglySorted (desc (@timeOf exampleDate)) sorted ∧
    (∀ t, filter (λ e, @timeOf exampleDate e = t) sorted
          = filter (λ e, @timeOf exampleDate e = t)
              (infoArrays (holding [entry1; entry2]) !!! 0%nat)) ∧
    (∃ w', @setDeathsList exampleDate 0%nat (holding [entry1; entry2]) = Returned tt w' ∧
           deathsList w' = deathsList (holding [entry1; entry2])
                           ++ (@detailItem exampleDate "deaths" <$> sorted)) ∧
    (∃ w', @setRecoveredList exampleDate 0%nat (holding [entry1; entry2]) = Returned tt w' ∧
           recoveredList w' = recoveredList (holding [entry1; entry2])
                              ++ (@detailItem exampleDate "recovered" <$> sorted)).
Proof.
  assert (Hdates : Forall (@hasDate exampleDate)
                     (infoArrays (holding [entry1; entry2]) !!! 0%nat)).
  { vm_compute. repeat constructor; discriminate. }
  split; [exact Hdates|].
  exact (@detail_list_sorted_stable exampleDate 0%nat (holding [entry1; entry2]) Hdates).
Defined.

Lemma country_counter_of_no_entries_throws_witness :
  infoArrays (holding []) !!! 0%nat = [] ∧
  setTotalDeathsByCountry 0%nat (holding []) = Thrown TypeError (holding []) ∧
  setTotalRecoveredByCountry 0%nat (holding []) = Thrown TypeError (holding []).
Proof.
  assert (Hempty : infoArrays (holding []) !!! 0%nat = []) by (vm_compute; reflexivity).
  split; [exact Hempty|].
  exact (country_counter_of_no_entries_throws 0%nat (holding []) Hempty).
Defined.

Lemma country_counter_shows_element_zero_witness :
  infoArrays (holding [entry1; entry2]) !!! 0%nat ≠ [] ∧
  Forall (@hasDate exampleDate) (infoArrays (holding [entry1; entry2]) !!! 0%nat) ∧
  ∃ first latest,
    (infoArrays (holding [entry1; entry2]) !!! 0%nat) !! 0%nat = Some first ∧
    setTotalDeathsByCountry 0%nat (holding [entry1; entry2])
    = Returned tt (set_deathsTotal (Number_toString (Cases first))
                     (holding [entry1; entry2])) ∧
    setTotalRecoveredByCountry 0%nat (holding [entry1; entry2])
    = Returned tt (set_recoveredTotal (Number_toString (Cases first))
                     (holding [entry1; entry2])) ∧
    latest ∈ infoArrays (holding [entry1; entry2]) !!! 0%nat ∧
    Forall (λ e, @timeOf exampleDate e <= @timeOf exampleDate latest)
      (infoArrays (holding [entry1; entry2]) !!! 0%nat) ∧
    (StronglySorted (desc (@timeOf exampleDate))
       (infoArrays (holding [entry1; entry2]) !!! 0%nat) → first = latest) ∧
    (∃ w', (@setDeathsList exampleDate 0%nat;; setTotalDeathsByCountry 0%nat)
             (holding [entry1; entry2]) = Returned tt w' ∧
           deathsTotal w' = Number_toString (Cases latest)) ∧
    (∃ w', (@setRecoveredList exampleDate 0%nat;; setTotalRecoveredByCountry 0%nat)
             (holding [entry1; entry2]) = Returned tt w' ∧
           recoveredTotal w' = Number_toString (Cases latest)).
Proof.
  assert (Hsome : infoArrays (holding [entry1; entry2]) !!! 0%nat ≠ [])
    by (vm_compute; discriminate).
  assert (Hdates : Forall (@hasDate exampleDate)
                     (infoArrays (holding [entry1; entry2]) !!! 0%nat)).
  { vm_compute. repeat constructor; discriminate. }
  split; [exact Hsome|]. split; [exact Hdates|].
  exact (@country_counter_shows_element_zero exampleDate 0%nat (holding [entry1; entry2])
           Hsome Hdates).
Defined.

Lemma click_while_loading_is_ignored_witness :
  idle atRest ∧
  isDeathLoading (world (@run exampleDate atRest [Click thailandClick])) = true ∧
  (@handleListClick exampleDate listClick
     (world (@run exampleDate atRest [Click thailandClick]))
   = Returned tt (world (@run exampleDate atRest [Click thailandClick])) ∧
   @step exampleDate (Click listClick) (@run exampleDate atRest [Click thailandClick])
   = @run exampleDate atRest [Click thailandClick]) ∧
  (length (waiting (@run exampleDate atRest [Click thailandClick; Click listClick])) ≤ 1)%nat ∧
  (waiting (@run exampleDate atRest [Click thailandClick; Click listClick]) ≠ [] →
   isDeathLoading (world (@run exampleDate atRest [Click thailandClick; Click listClick]))
   = true).
Proof.
  assert (Hloading :
    isDeathLoading (world (@run exampleDate atRest [Click thailandClick])) = true)
    by (vm_compute; reflexivity).
  split; [exact idle_atRest|]. split; [exact Hloading|].
  exact (@click_while_loading_is_ignored exampleDate atRest
           (@run exampleDate atRest [Click thailandClick])
           [Click thailandClick; Click listClick] listClick idle_atRest Hloading).
Defined.

Lemma fetches_are_issued_one_after_another_witness :
  idle atRest ∧
  let d := [entry1; entry2] in
  let r := [entry2; entry1] in
  let c := [entry1; entry2] in
  let st1 := @run exampleDate atRest [Click thailandClick] in
  let st2 := @run exampleDate atRest [Click thailandClick; Response 0%nat d] in
  let st3 := @run exampleDate atRest
               [Click thailandClick; Response 0%nat d; Response 1%nat r] in
  let st4 := @run exampleDate atRest
               [Click thailandClick; Response 0%nat d; Response 1%nat r; Response 2%nat c] in
  (requests (world st1) = [] ++ [countryUrl (Some "thailand") Deaths] ∧
   (waiting st1).*1 = [0%nat] ∧ pending emptyWorld (world st1)) ∧
  (requests (world st2)
   = [] ++ [countryUrl (Some "thailand") Deaths; countryUrl (Some "thailand") Recovered] ∧
   (waiting st2).*1 = [1%nat] ∧ pending emptyWorld (world st2)) ∧
  (requests (world st3)
   = [] ++ [countryUrl (Some "thailand") Deaths; countryUrl (Some "thailand") Recovered;
            countryUrl (Some "thailand") Confirmed] ∧
   (waiting st3).*1 = [2%nat] ∧ pending emptyWorld (world st3)) ∧
  (requests (world st4) = requests (world st3) ∧
   waiting st4 = [] ∧
   deathsList (world st4)
   = @detailItem exampleDate "deaths"
       <$> Array_sort (λ a b, number_sub (@getUnixTimestamp exampleDate (Date b))
                                (@getUnixTimestamp exampleDate (Date a))) d).
Proof.
  split; [exact idle_atRest|].
  exact (@fetches_are_issued_one_after_another exampleDate atRest thailandClick
           [entry1; entry2] [entry2; entry1] [entry1; entry2] idle_atRest).
Defined.

Lemma click_outside_items_is_served_witness :
  idle atRest ∧
  requests (world (@run exampleDate atRest
                     [Click listClick; Response 0%nat [entry1]; Response 1%nat [entry2]]))
  = [] ++ ["https://api.covid19api.com/country/undefined/status/deaths";
           "https://api.covid19api.com/country/undefined/status/recovered";
           "https://api.covid19api.com/country/undefined/status/confirmed"].
Proof.
  split; [exact idle_atRest|].
  exact (proj2 (proj2 (proj2 (proj2 (proj2
    (@click_outside_items_is_served exampleDate atRest [entry1] [entry2] idle_atRest)))))).
Defined.

Lemma failed_fetch_locks_the_page_witness :
  idle atRest ∧ (length [[entry1]] < 3)%nat ∧
  let st' := @run exampleDate atRest
               (Click thailandClick :: responses 0%nat [[entry1]] ++ [Failure 1%nat]) in
  pending emptyWorld (world st') ∧
  waiting st' = [] ∧
  (∀ later, @run exampleDate st' later = st') ∧
  (∀ later event', @step exampleDate (Click event') (@run exampleDate st' later) = st').
Proof.
  assert (Hlen : (length [[entry1]] < 3)%nat) by (simpl; lia).
  split; [exact idle_atRest|]. split; [exact Hlen|].
  exact (@failed_fetch_locks_the_page exampleDate atRest thailandClick [[entry1]]
           idle_atRest Hlen).
Defined.

(** C1, as stated, fails: when the call of [handleListClick] is suspended
    at its first [await], on promise 0, one request has been sent, not
    three; the second is sent only once the first has been answered. *)
Lemma fetches_in_parallel_counterexample :
  let st1 := @run exampleDate atRest [Click thailandClick] in
  let st2 := @run exampleDate atRest [Click thailandClick; Response 0%nat [entry1]] in
  (waiting st1).*1 = [0%nat] ∧
  requests (world st1) = ["https://api.covid19api.com/country/thailand/status/deaths"] ∧
  length (requests (world st1)) ≠ 3%nat ∧
  requests (world st2) = ["https://api.covid19api.com/country/thailand/status/deaths";
                          "https://api.covid19api.com/country/thailand/status/recovered"].
Proof. vm_compute. by repeat split. Qed.

(** C5, as stated, fails: rendering the rank list of Thailand (10
    confirmed) and Viet Nam (20 confirmed) leaves the array [Countries] in
    the other order. *)
Lemma rank_render_keeps_input_counterexample :
  ∃ w',
    setCountryRanksByConfirmedCases {| Countries := 0%nat |} summaryWorld = Returned tt w' ∧
    countryArrays summaryWorld !!! 0%nat = [country1; country2] ∧
    countryArrays w' !!! 0%nat = [country2; country1] ∧
    countryArrays w' !!! 0%nat ≠ countryArrays summaryWorld !!! 0%nat.
Proof.
  eexists. split; [apply setCountryRanksByConfirmedCases_eq|].
  split_and!; [by vm_compute..|]. vm_compute. discriminate.
Qed.

(** C8, as stated, fails: given the two entries of the example oldest
    first, each counter function writes 5, the count of the entry of the
    older date, though the entry of 2 January, with 9, is the latest. *)
Lemma country_counter_without_sort_counterexample :
  infoArrays (holding [entry1; entry2]) !!! 0%nat = [entry1; entry2] ∧
  @timeOf exampleDate entry1 < @timeOf exampleDate entry2 ∧
  Number_toString (Cases entry2) = "9" ∧
  setTotalDeathsByCountry 0%nat (holding [entry1; entry2])
  = Returned tt (set_deathsTotal "5" (holding [entry1; entry2])) ∧
  setTotalRecoveredByCountry 0%nat (holding [entry1; entry2])
  = Returned tt (set_recoveredTotal "5" (holding [entry1; entry2])) ∧
  deathsTotal (worldOf (setTotalDeathsByCountry 0%nat (holding [entry1; entry2])))
  ≠ Number_toString (Cases entry2).
Proof. vm_compute. split_and!; try reflexivity. discriminate. Qed.


(** * The rest of [app.ts] *)

(** ** The counters of the world *)

Section counter_facts.
Context {A : Type} (field : A → Z).

Lemma Array_reduce_sum (acc : Z) (elements : list A) :
  Array_reduce (λ total current, total + field current) acc elements
  = acc + sumOf field elements.
Proof.
  revert acc. induction elements as [|x rest IH]; intros acc; simpl; [lia|].
  unfold Array_reduce in *. simpl. rewrite IH. unfold sumOf. simpl. lia.
Qed.

Lemma sumOf_perm (l l' : list A) : l ≡ₚ l' → sumOf field l = sumOf field l'.
Proof.
  unfold sumOf. induction 1 as [|x l l' _ IH|x y l|l l' l'' _ IH1 _ IH2]; simpl; lia.
Qed.
End counter_facts.

Lemma setTotalDeathsByWorld_eq (data : CovidSummaryResponse) (w : World) :
  setTotalDeathsByWorld data w
  = Returned tt (set_deathsTotal
      (Number_toString (sumOf TotalDeaths (countryArrays w !!! Countries data))) w).
Proof.
  unfold setTotalDeathsByWorld, mbind, Task_bind, gets, modify. cbn [Outcome_bind].
  by rewrite Array_reduce_sum.
Qed.

Lemma setTotalRecoveredByWorld_eq (data : CovidSummaryResponse) (w : World) :
  setTotalRecoveredByWorld data w
  = Returned tt (set_recoveredTotal
      (Number_toString (sumOf TotalRecovered (countryArrays w !!! Countries data))) w).
Proof.
  unfold setTotalRecoveredByWorld, mbind, Task_bind, gets, modify. cbn [Outcome_bind].
  by rewrite Array_reduce_sum.
Qed.

(** X1: the three counters of the world show the sums of the deaths, of
    the recovered and of the confirmed over the records, in whatever
    order the array holds them; the two tasks return and write nothing
    but their counter. *)
Theorem world_counters_are_sums
    (data : CovidSummaryResponse) (w : World) (records : list Country)
    (elements : SummaryElements) :
  countryArrays w !!! Countries data ≡ₚ records →
  setTotalDeathsByWorld data w
  = Returned tt (set_deathsTotal (Number_toString (sumOf TotalDeaths records)) w) ∧
  setTotalRecoveredByWorld data w
  = Returned tt (set_recoveredTotal (Number_toString (sumOf TotalRecovered records)) w) ∧
  confirmedTotal (setTotalConfirmedNumber data w elements)
  = Number_toString (sumOf TotalConfirmed records).
Proof.
  intros Hperm. rewrite setTotalDeathsByWorld_eq, setTotalRecoveredByWorld_eq.
  unfold setTotalConfirmedNumber. cbn [confirmedTotal]. rewrite Array_reduce_sum.
  rewrite (sumOf_perm TotalDeaths _ _ Hperm), (sumOf_perm TotalRecovered _ _ Hperm),
    (sumOf_perm TotalConfirmed _ _ Hperm).
  done.
Qed.

(** X2: rendering the rank list, which sorts the array, before the
    counters are written gives the same counters as writing them first,
    and the counters leave the rank list alone. *)
Theorem world_counters_after_rank_list (data : CovidSummaryResponse) (w : World) :
  deathsTotal (worldOf ((setCountryRanksByConfirmedCases data;;
                         setTotalDeathsByWorld data) w))
  = deathsTotal (worldOf (setTotalDeathsByWorld data w)) ∧
  recoveredTotal (worldOf ((setCountryRanksByConfirmedCases data;;
                            setTotalRecoveredByWorld data) w))
  = recoveredTotal (worldOf (setTotalRecoveredByWorld data w)) ∧
  rankList (worldOf ((setTotalDeathsByWorld data;; setTotalRecoveredByWorld data;;
                      setCountryRanksByConfirmedCases data) w))
  = rankList (worldOf (setCountryRanksByConfirmedCases data w)).
Proof.
  pose proof (Array_sort_perm (λ a b : Country, Num (TotalConfirmed b - TotalConfirmed a))
                (countryArrays w !!! Countries data)) as Hperm.
  rewrite !worldOf_bind, !setCountryRanksByConfirmedCases_eq.
  rewrite !setTotalDeathsByWorld_eq, !setTotalRecoveredByWorld_eq.
  rewrite worldOf_bind, setTotalRecoveredByWorld_eq, setCountryRanksByConfirmedCases_eq.
  cbn [worldOf deathsTotal recoveredTotal rankList countryArrays set_rankList
       set_countryArrays set_deathsTotal set_recoveredTotal].
  rewrite !lookup_total_insert_eq.
  by rewrite (sumOf_perm TotalDeaths _ _ Hperm), (sumOf_perm TotalRecovered _ _ Hperm).
Qed.

(** ** The spinners *)

Lemma detach_absent (node : Node) (children : list Node) :
  node ∉ children → filter (λ n, n ≠ node) children = children.
Proof.
  intros Hnot. induction children as [|x rest IH]; [done|].
  apply not_elem_of_cons in Hnot as [Hx Hrest].
  rewrite filter_cons_True by done. by rewrite IH.
Qed.

Lemma detach_appendChild_existing (node : Node) (children : list Node) :
  filter (λ n, n ≠ node) (appendChild_existing node children)
  = filter (λ n, n ≠ node) children.
Proof.
  unfold appendChild_existing. rewrite filter_app, list_filter_filter.
  rewrite filter_cons_False, filter_nil, app_nil_r by (by intros ?).
  apply list_filter_iff. intros x. tauto.
Qed.

Lemma removeChild_appendChild_existing (node : Node) (children : list Node) :
  removeChild node (appendChild_existing node children)
  = Some (filter (λ n, n ≠ node) children).
Proof.
  unfold removeChild. rewrite decide_True.
  - by rewrite detach_appendChild_existing.
  - unfold appendChild_existing. apply elem_of_app. right. apply list_elem_of_here.
Qed.

Lemma removeChild_absent (node : Node) (children : list Node) :
  node ∉ children → removeChild node children = None.
Proof. intros Hnot. unfold removeChild. by rewrite decide_False. Qed.

Lemma removeChild_present (node : Node) (children : list Node) :
  node ∈ children → removeChild node children = Some (filter (λ n, n ≠ node) children).
Proof. intros Hin. unfold removeChild. by rewrite decide_True. Qed.

Lemma startLoadingAnimation_eq (w : World) :
  startLoadingAnimation w
  = Returned tt
      (set_recoveredList (appendChild_existing recoveredSpinner (recoveredList w))
         (set_deathsList (appendChild_existing deathSpinner (deathsList w)) w)).
Proof. reflexivity. Qed.

(** X3: showing the spinners and hiding them again leaves the page as it
    was, when the lists did not hold the spinners to begin with. *)
Theorem loading_animation_round_trip (w : World) :
  deathSpinner ∉ deathsList w →
  recoveredSpinner ∉ recoveredList w →
  (startLoadingAnimation;; endLoadingAnimation) w = Returned tt w.
Proof.
  intros Hd Hr. unfold mbind, Task_bind. rewrite startLoadingAnimation_eq.
  cbn [Outcome_bind]. rewrite endLoadingAnimation_eq.
  cbn [deathsList recoveredList set_deathsList set_recoveredList].
  rewrite !removeChild_appendChild_existing, !detach_absent by done.
  by destruct w.
Qed.

(** X4: showing the spinners twice is showing them once: each list ends
    with its spinner, and holds it once. *)
Theorem loading_animation_shows_one_spinner (w : World) :
  (startLoadingAnimation;; startLoadingAnimation) w = startLoadingAnimation w ∧
  ∃ w', startLoadingAnimation w = Returned tt w' ∧
        deathsList w' = filter (λ n, n ≠ deathSpinner) (deathsList w) ++ [deathSpinner] ∧
        recoveredList w'
        = filter (λ n, n ≠ recoveredSpinner) (recoveredList w) ++ [recoveredSpinner].
Proof.
  split.
  - unfold mbind, Task_bind. rewrite !startLoadingAnimation_eq. cbn [Outcome_bind].
    rewrite startLoadingAnimation_eq.
    cbn [deathsList recoveredList set_deathsList set_recoveredList].
    unfold appendChild_existing at 1 3.
    by rewrite !detach_appendChild_existing.
  - eexists. split; [apply startLoadingAnimation_eq|]. done.
Qed.

(** X5: hiding the spinners when one of them is not shown throws a
    [NotFoundError]. The recovered list is left as it is; the deaths list
    is left as it is when its spinner is the missing one, and has lost its
    spinner otherwise. *)
Theorem loading_animation_end_without_spinner (w : World) :
  deathSpinner ∉ deathsList w ∨ recoveredSpinner ∉ recoveredList w →
  ∃ w',
    endLoadingAnimation w = Thrown NotFoundError w' ∧
    recoveredList w' = recoveredList w ∧
    deathsList w' = filter (λ n, n ≠ deathSpinner) (deathsList w) ∧
    isDeathLoading w' = isDeathLoading w ∧
    (deathSpinner ∉ deathsList w → w' = w).
Proof.
  intros Hmissing. rewrite endLoadingAnimation_eq.
  destruct (decide (deathSpinner ∈ deathsList w)) as [Hin|Hnot].
  - destruct Hmissing as [?|Hr]; [done|].
    rewrite removeChild_present, removeChild_absent by done.
    eexists. split; [reflexivity|]. by repeat split.
  - rewrite removeChild_absent by done.
    exists w. split; [reflexivity|]. rewrite detach_absent by done. by repeat split.
Qed.

Section served_facts.
Context `{DateBuiltin}.

Local Abbreviation byDate :=
  (λ a b, number_sub (getUnixTimestamp (Date b)) (getUnixTimestamp (Date a))).

Lemma renderResponses_no_deaths (d r c : CountryInfoResponse) (w : World) :
  deathsList w = [deathSpinner] → recoveredList w = [recoveredSpinner] →
  infoArrays w !!! d = [] →
  ∃ w',
    renderResponses d r c w = Thrown TypeError w' ∧
    isDeathLoading w' = isDeathLoading w ∧
    deathsList w' = [] ∧ recoveredList w' = [] ∧
    deathsTotal w' = deathsTotal w ∧ recoveredTotal w' = recoveredTotal w ∧
    charts w' = charts w.
Proof.
  intros Hd Hr Hempty. unfold renderResponses, mbind, Task_bind.
  rewrite endLoadingAnimation_spinners by done. cbn [Outcome_bind].
  rewrite setDeathsList_eq. cbn [Outcome_bind].
  rewrite setTotalDeathsByCountry_eq.
  cbn [infoArrays set_deathsList set_recoveredList set_infoArrays].
  rewrite lookup_total_insert_eq, Hempty. cbn [Array_sort lookup list_lookup Outcome_bind].
  eexists. split; [reflexivity|]. by repeat split.
Qed.

Lemma renderResponses_no_recovered (d r c : CountryInfoResponse) (w : World)
    (first : CountryInfo) (rest : list CountryInfo) :
  deathsList w = [deathSpinner] → recoveredList w = [recoveredSpinner] →
  d ≠ r →
  Array_sort byDate (infoArrays w !!! d) = first :: rest →
  infoArrays w !!! r = [] →
  ∃ w',
    renderResponses d r c w = Thrown TypeError w' ∧
    isDeathLoading w' = isDeathLoading w ∧
    deathsList w' = detailItem "deaths" <$> first :: rest ∧
    recoveredList w' = [] ∧
    deathsTotal w' = Number_toString (Cases first) ∧
    recoveredTotal w' = recoveredTotal w ∧
    charts w' = charts w.
Proof.
  intros Hd Hr Hdr Hsort Hempty. unfold renderResponses, mbind, Task_bind.
  rewrite endLoadingAnimation_spinners by done. cbn [Outcome_bind].
  rewrite setDeathsList_eq. cbn [Outcome_bind].
  rewrite setTotalDeathsByCountry_eq.
  cbn [infoArrays set_deathsList set_recoveredList set_infoArrays].
  rewrite lookup_total_insert_eq, Hsort. cbn [lookup list_lookup Outcome_bind].
  rewrite setRecoveredList_eq. cbn [Outcome_bind].
  rewrite setTotalRecoveredByCountry_eq.
  cbn [infoArrays set_deathsList set_recoveredList set_infoArrays set_deathsTotal].
  rewrite lookup_total_insert_eq, lookup_total_insert_ne, Hempty by done.
  cbn [Array_sort lookup list_lookup Outcome_bind].
  eexists. split; [reflexivity|]. by repeat split.
Qed.

(** X6: a click at rest on a page whose canvas is free, whose three
    requests are answered, the deaths and the recovered with entries that
    have dates, is served to its end. Both lists then hold the new entries
    and nothing else, newest first; each counter shows the count of the
    first entry of its list; the chart of the confirmed has been
    constructed on the canvas; three requests have been sent; and the loop
    is at rest again. *)
Theorem served_click_renders_the_page
    (st : Loop) (event : MouseEvent) (d r c : list CountryInfo) :
  idle st →
  charts (world st) = [] →
  d ≠ [] → r ≠ [] →
  Forall hasDate d → Forall hasDate r →
  let p := length (requests (world st)) in
  let key := selectedIdOf event in
  let st4 := run st [Click event; Response p d; Response (S p) r; Response (S (S p)) c] in
  idle st4 ∧
  deathsList (world st4) = detailItem "deaths" <$> Array_sort byDate d ∧
  recoveredList (world st4) = detailItem "recovered" <$> Array_sort byDate r ∧
  StronglySorted (desc timeOf) (Array_sort byDate d) ∧
  StronglySorted (desc timeOf) (Array_sort byDate r) ∧
  Some (deathsTotal (world st4))
  = (Number_toString ∘ Cases) <$> head (Array_sort byDate d) ∧
  Some (recoveredTotal (world st4))
  = (Number_toString ∘ Cases) <$> head (Array_sort byDate r) ∧
  charts (world st4)
  = [{| labels := (λ value, String_slice 5 (-1) (Date_toLocaleDateString (Date value)))
                    <$> Array_slice (-14) c;
        dataset_label := "Confirmed for the last two weeks";
        dataset_data := Cases <$> Array_slice (-14) c |}] ∧
  requests (world st4)
  = requests (world st)
    ++ [countryUrl key Deaths; countryUrl key Recovered; countryUrl key Confirmed].
Proof.
  intros Hidle Hfree Hd Hr HdatesD HdatesR p key st4.
  pose proof (Array_sort_desc _ _ _ byDate_desc d HdatesD) as HsortedD.
  pose proof (Array_sort_desc _ _ _ byDate_desc r HdatesR) as HsortedR.
  destruct (Array_sort byDate d) as [|firstD restD] eqn:HsortD.
  { by apply Array_sort_nil_inv in HsortD. }
  destruct (Array_sort byDate r) as [|firstR restR] eqn:HsortR.
  { by apply Array_sort_nil_inv in HsortR. }
  destruct (click_rendered st event d r c _ _ _ _ Hidle HsortD HsortR)
    as (Hnone & HlistD & HtotalD & HlistR & HtotalR & _ & Hchart).
  rewrite Hfree in Hchart. destruct Hchart as [Hdown Hchart].
  fold p st4 in Hnone, HlistD, HtotalD, HlistR, HtotalR, Hdown, Hchart.
  split_and!; try done.
  - by rewrite HtotalD.
  - by rewrite HtotalR.
  - destruct (click_served st event d r c Hidle)
      as (k1 & k2 & k3 & (_ & _ & _ & H4) & _).
    subst st4 p key. rewrite H4, park_completes by apply renderResponses_completes.
    cbn [world]. rewrite renderResponses_requests. simpl. by rewrite <- !app_assoc.
Qed.

(** X16: a click at rest on a page whose canvas holds a chart already
    (any click served after the first one), answered as in X6, throws when
    it comes to the chart: the lists and the counters of the click are
    written, but the chart on the canvas stays the old one, the flag stays
    up, no call is suspended, and nothing that comes later moves the
    loop. *)
Theorem click_on_a_used_canvas_locks_the_page
    (st : Loop) (event : MouseEvent) (d r c : list CountryInfo) :
  idle st →
  charts (world st) ≠ [] →
  d ≠ [] → r ≠ [] →
  Forall hasDate d → Forall hasDate r →
  let p := length (requests (world st)) in
  let st4 := run st [Click event; Response p d; Response (S p) r; Response (S (S p)) c] in
  isDeathLoading (world st4) = true ∧
  waiting st4 = [] ∧
  charts (world st4) = charts (world st) ∧
  deathsList (world st4) = detailItem "deaths" <$> Array_sort byDate d ∧
  recoveredList (world st4) = detailItem "recovered" <$> Array_sort byDate r ∧
  Some (deathsTotal (world st4))
  = (Number_toString ∘ Cases) <$> head (Array_sort byDate d) ∧
  Some (recoveredTotal (world st4))
  = (Number_toString ∘ Cases) <$> head (Array_sort byDate r) ∧
  (∀ later, run st4 later = st4).
Proof.
  intros Hidle Hused Hd Hr HdatesD HdatesR p st4.
  destruct (Array_sort byDate d) as [|firstD restD] eqn:HsortD.
  { by apply Array_sort_nil_inv in HsortD. }
  destruct (Array_sort byDate r) as [|firstR restR] eqn:HsortR.
  { by apply Array_sort_nil_inv in HsortR. }
  destruct (click_rendered st event d r c _ _ _ _ Hidle HsortD HsortR)
    as (Hnone & HlistD & HtotalD & HlistR & HtotalR & _ & Hchart).
  destruct (charts (world st)) as [|chart others] eqn:Hcharts; [done|].
  destruct Hchart as [Hup Hchart].
  fold p st4 in Hnone, HlistD, HtotalD, HlistR, HtotalR, Hup, Hchart.
  split_and!; try done.
  - by rewrite HtotalD.
  - by rewrite HtotalR.
  - intros later. by apply locked_forever.
Qed.

(** X7: when the deaths or the recovered are answered with no entries,
    the call throws at the counter of that kind: after the third response
    the flag is still up, no chart has been drawn, the recovered list is
    empty and its counter as before the click, and the deaths list holds
    the entries received, newest first. Nothing is suspended, and nothing
    that comes later moves the loop. *)
Theorem empty_response_locks_the_page_for_good
    (st : Loop) (event : MouseEvent) (d r c : list CountryInfo) :
  idle st →
  d = [] ∨ r = [] →
  let p := length (requests (world st)) in
  let st4 := run st [Click event; Response p d; Response (S p) r; Response (S (S p)) c] in
  isDeathLoading (world st4) = true ∧
  waiting st4 = [] ∧
  deathsList (world st4) = detailItem "deaths" <$> Array_sort byDate d ∧
  recoveredList (world st4) = [] ∧
  recoveredTotal (world st4) = recoveredTotal (world st) ∧
  charts (world st4) = charts (world st) ∧
  (d = [] → deathsTotal (world st4) = deathsTotal (world st)) ∧
  (∀ later, run st4 later = st4).
Proof.
  intros Hidle Hempty p st4.
  destruct (click_served st event d r c Hidle) as (k1 & k2 & k3 & (_ & _ & _ & H4) & _).
  destruct (three_arrays d r c (selectedIdOf event) (started event (world st)))
    as ((Hdr & _ & _) & Hread1 & Hread2 & _).
  assert (Hlocked :
    isDeathLoading (world st4) = true ∧ waiting st4 = [] ∧
    deathsList (world st4) = detailItem "deaths" <$> Array_sort byDate d ∧
    recoveredList (world st4) = [] ∧
    recoveredTotal (world st4) = recoveredTotal (world st) ∧
    charts (world st4) = charts (world st) ∧
    (d = [] → deathsTotal (world st4) = deathsTotal (world st))).
  { subst st4 p. rewrite H4. clear H4.
    destruct (Array_sort byDate d) as [|first rest] eqn:Hsort.
    - apply Array_sort_nil_inv in Hsort. subst d.
      match goal with
      | |- context [renderResponses ?d' ?r' ?c' ?w'] =>
          destruct (renderResponses_no_deaths d' r' c' w')
            as (wf & -> & Hflag & HlistD & HlistR & HtotalD & HtotalR & Hcharts)
      end; [done|done|exact Hread1|].
      cbn [park world waiting]. by rewrite Hflag, HlistD, HlistR, HtotalD, HtotalR, Hcharts.
    - destruct Hempty as [-> | ->]; [done|].
      assert (Hne : d ≠ []) by (by intros ->).
      rewrite <- Hread1 in Hsort.
      match goal with
      | |- context [renderResponses ?d' ?r' ?c' ?w'] =>
          destruct (renderResponses_no_recovered d' r' c' w' first rest)
            as (wf & -> & Hflag & HlistD & HlistR & HtotalD & HtotalR & Hcharts)
      end; [done|done|exact Hdr|exact Hsort|exact Hread2|].
      cbn [park world waiting]. rewrite Hflag, HlistD, HlistR, HtotalR, Hcharts.
      split_and!; done. }
  destruct Hlocked as (Hflag & Hnone & Hrest).
  split; [done|]. split; [done|].
  repeat (split; [apply Hrest|]).
  intros later. by apply locked_forever.
Qed.
End served_facts.

Section loop_facts.
Context `{DateBuiltin}.

Local Abbreviation byDate :=
  (λ a b, number_sub (getUnixTimestamp (Date b)) (getUnixTimestamp (Date a))).

(** How the world moves in one step of a guarded loop: not at all; or a
    click at rest starts a call; or a response takes the suspended call to
    its next request; or the third response takes it through
    [renderResponses]. *)
Lemma guarded_step_world (e : Event) (st : Loop) :
  guarded st →
  world (step e st) = world st
  ∨ (∃ event, isDeathLoading (world st) = false ∧
              world (step e st) = started event (world st))
  ∨ (isDeathLoading (world st) = true ∧
     ∃ payload key status,
       world (step e st) = requested key status (newArray payload (world st)).2)
  ∨ (isDeathLoading (world st) = true ∧
     ∃ payload d r,
       world (step e st)
       = worldOf (renderResponses d r (newArray payload (world st)).1
                    (newArray payload (world st)).2)).
Proof.
  intros [Hnone|[Hflag Hserving]].
  - destruct e as [event|p payload|p].
    + destruct (isDeathLoading (world st)) eqn:Hloading.
      * left. by rewrite step_click_loading.
      * destruct (step_click_idle event st) as (k & -> & _); [done|].
        right. left. by exists event.
    + left. rewrite step_response_unawaited; [done|]. rewrite Hnone. apply not_elem_of_nil.
    + left. rewrite step_failure_unawaited; [done|]. rewrite Hnone. apply not_elem_of_nil.
  - destruct (serving_inv st Hserving) as (p & k & Hwait & Hk).
    destruct e as [event|q payload|q].
    + left. by rewrite step_click_loading.
    + destruct (decide (q = p)) as [->|Hne].
      2:{ left. rewrite step_response_unawaited; [done|].
          rewrite Hwait. by intros ?%list_elem_of_singleton. }
      destruct st as [w suspended]. cbn [waiting world] in *. subst suspended.
      rewrite step_response_awaited.
      destruct Hserving as [p' k' key Hw [_ Hk']|p' k' key d Hw [_ Hk']|p' k' d r Hw [_ Hk']];
        cbn [waiting] in Hw; simplify_eq.
      * destruct (Hk' {| data := (newArray payload w).1 |} (newArray payload w).2)
          as (k2 & -> & _).
        right. right. left. split; [done|]. by exists payload, key, Recovered.
      * destruct (Hk' {| data := (newArray payload w).1 |} (newArray payload w).2)
          as (k3 & -> & _).
        right. right. left. split; [done|]. by exists payload, key, Confirmed.
      * rewrite Hk', park_completes by apply renderResponses_completes.
        right. right. right. split; [done|]. by exists payload, d, r.
    + destruct (decide (q = p)) as [->|Hne].
      2:{ left. rewrite step_failure_unawaited; [done|].
          rewrite Hwait. by intros ?%list_elem_of_singleton. }
      destruct st as [w suspended]. cbn [waiting world] in *. subst suspended.
      left. by rewrite step_failure_awaited, Hk.
Qed.

(** The rendering leaves the rank list, the arrays of the summary and the
    requests as they are. *)
Lemma renderResponses_frame (d r c : CountryInfoResponse) (w : World) :
  rankList (worldOf (renderResponses d r c w)) = rankList w ∧
  countryArrays (worldOf (renderResponses d r c w)) = countryArrays w.
Proof.
  unfold renderResponses.
  rewrite worldOf_bind, endLoadingAnimation_eq.
  destruct (removeChild _ _); [|done]. destruct (removeChild _ _); [|done].
  rewrite worldOf_bind, setDeathsList_eq.
  rewrite worldOf_bind, setTotalDeathsByCountry_eq.
  destruct (_ !! 0%nat); [|done].
  rewrite worldOf_bind, setRecoveredList_eq.
  rewrite worldOf_bind, setTotalRecoveredByCountry_eq.
  destruct (_ !! 0%nat); [|done].
  rewrite worldOf_bind, setChartData_eq. by destruct (charts _).
Qed.

(** X8: serving clicks never touches the rank list nor the array of the
    summary, and never takes back a request: whatever events arrive at a
    loop at rest, the rank list and the records stay as they were and the
    requests sent before are a prefix of the requests sent. *)
Theorem clicks_leave_the_summary_alone (st : Loop) (events : list Event) :
  idle st →
  rankList (world (run st events)) = rankList (world st) ∧
  countryArrays (world (run st events)) = countryArrays (world st) ∧
  requests (world st) `prefix_of` requests (world (run st events)).
Proof.
  intros Hidle. assert (Hguarded : guarded st) by (left; apply Hidle).
  clear Hidle. induction events as [|e events IH] using rev_ind; [done|].
  rewrite run_snoc. destruct IH as (Hrank & Hcountries & Hrequests).
  pose proof (guarded_run events st Hguarded) as Hnow.
  destruct (guarded_step_world e (run st events) Hnow)
    as [->|[(event & _ & ->)|[(_ & payload & key & status & ->)
       |(_ & payload & d & r & ->)]]].
  - done.
  - split_and!; [done..|]. by apply prefix_app_r.
  - split_and!; [done..|]. by apply prefix_app_r.
  - destruct (renderResponses_frame d r (newArray payload (world (run st events))).1
                (newArray payload (world (run st events))).2) as [-> ->].
    by rewrite renderResponses_requests.
Qed.

(** The rendering draws a chart on a free canvas, or leaves the chart
    that lives on the canvas. *)
Lemma renderResponses_charts (d r c : CountryInfoResponse) (w : World) :
  charts (worldOf (renderResponses d r c w)) = charts w
  ∨ (charts w = [] ∧ ∃ chart, charts (worldOf (renderResponses d r c w)) = [chart]).
Proof.
  unfold renderResponses.
  rewrite worldOf_bind, endLoadingAnimation_eq.
  destruct (removeChild _ _); [|by left]. destruct (removeChild _ _); [|by left].
  rewrite worldOf_bind, setDeathsList_eq.
  rewrite worldOf_bind, setTotalDeathsByCountry_eq.
  destruct (_ !! 0%nat); [|by left].
  rewrite worldOf_bind, setRecoveredList_eq.
  rewrite worldOf_bind, setTotalRecoveredByCountry_eq.
  destruct (_ !! 0%nat); [|by left].
  rewrite worldOf_bind, setChartData_eq.
  cbn [charts set_recoveredTotal set_recoveredList set_infoArrays set_deathsTotal
       set_deathsList].
  destruct (charts w) eqn:Hcharts; [|by left].
  right. split; [done|]. by eexists.
Qed.

(** X17: the canvas holds at most one chart, and the chart drawn first is
    the chart for good: whatever events arrive at a loop at rest whose
    canvas holds at most one chart, the canvas holds at most one chart
    afterwards, and a chart that lived on it before still does. *)
Theorem canvas_holds_at_most_one_chart (st : Loop) (events : list Event) :
  idle st →
  (length (charts (world st)) ≤ 1)%nat →
  (length (charts (world (run st events))) ≤ 1)%nat ∧
  charts (world st) `prefix_of` charts (world (run st events)).
Proof.
  intros Hidle Hone. assert (Hguarded : guarded st) by (left; apply Hidle).
  clear Hidle. induction events as [|e events IH] using rev_ind; [done|].
  rewrite run_snoc. destruct IH as [Hlen Hprefix].
  pose proof (guarded_run events st Hguarded) as Hnow.
  destruct (guarded_step_world e (run st events) Hnow)
    as [->|[(event & _ & ->)|[(_ & payload & key & status & ->)
       |(_ & payload & d & r & ->)]]]; [done..|].
  destruct (renderResponses_charts d r (newArray payload (world (run st events))).1
              (newArray payload (world (run st events))).2)
    as [->|[Hfree [chart ->]]]; [done|].
  cbn [charts newArray snd set_infoArrays] in Hfree.
  rewrite Hfree in Hprefix. apply prefix_nil_inv in Hprefix.
  rewrite Hprefix. split; [simpl; lia|apply prefix_nil].
Qed.

(** A call that ends with the flag down has removed both spinners. *)
Lemma renderResponses_flag_down (d r c : CountryInfoResponse) (w : World) :
  isDeathLoading w = true →
  isDeathLoading (worldOf (renderResponses d r c w)) = false →
  (deathSpinner ∉ deathsList (worldOf (renderResponses d r c w))) ∧
  (recoveredSpinner ∉ recoveredList (worldOf (renderResponses d r c w))).
Proof.
  intros Hup. unfold renderResponses.
  rewrite worldOf_bind, endLoadingAnimation_eq. unfold removeChild.
  destruct (decide (deathSpinner ∈ deathsList w)); [|by (intros Hdown; cbn in Hdown; congruence)].
  destruct (decide (recoveredSpinner ∈ recoveredList w)); [|by (intros Hdown; cbn in Hdown; congruence)].
  rewrite worldOf_bind, setDeathsList_eq.
  rewrite worldOf_bind, setTotalDeathsByCountry_eq.
  destruct (_ !! 0%nat); [|by (intros Hdown; cbn in Hdown; congruence)].
  rewrite worldOf_bind, setRecoveredList_eq.
  rewrite worldOf_bind, setTotalRecoveredByCountry_eq.
  destruct (_ !! 0%nat); [|by (intros Hdown; cbn in Hdown; congruence)].
  rewrite worldOf_bind, setChartData_eq.
  destruct (charts _); [|by (intros Hdown; cbn in Hdown; congruence)].
  intros _. cbn. split.
  - intros [Hin|Hin]%elem_of_app.
    + by apply list_elem_of_filter in Hin as [? _].
    + by apply list_elem_of_fmap in Hin as (? & ? & _).
  - intros [Hin|Hin]%elem_of_app.
    + by apply list_elem_of_filter in Hin as [? _].
    + by apply list_elem_of_fmap in Hin as (? & ? & _).
Qed.

(** X9: from a page at rest that shows no spinner, whatever events
    arrive: whenever the flag is down, neither list shows its spinner and
    no call is suspended. The spinners are only shown while clicks are
    ignored. *)
Theorem spinners_only_while_loading (st : Loop) (events : list Event) :
  idle st →
  deathSpinner ∉ deathsList (world st) →
  recoveredSpinner ∉ recoveredList (world st) →
  isDeathLoading (world (run st events)) = false →
  (deathSpinner ∉ deathsList (world (run st events))) ∧
  (recoveredSpinner ∉ recoveredList (world (run st events))) ∧
  waiting (run st events) = [].
Proof.
  intros Hidle Hd Hr. assert (Hguarded : guarded st) by (left; apply Hidle).
  clear Hidle. induction events as [|e events IH] using rev_ind.
  { intros Hdown. split_and!; [done..|].
    destruct Hguarded as [|[Hup _]]; [done|]. cbn in Hdown, Hup. congruence. }
  rewrite run_snoc. intros Hdown.
  pose proof (guarded_run events st Hguarded) as Hnow.
  assert (Hnone : waiting (step e (run st events)) = []).
  { destruct (guarded_step e _ Hnow) as [|[Hup _]]; [done|congruence]. }
  split_and!; [| |done];
  destruct (guarded_step_world e (run st events) Hnow)
    as [Heq|[(event & _ & Heq)|[(Hup & payload & key & status & Heq)
       |(Hup & payload & d & r & Heq)]]];
    rewrite Heq in Hdown |- *; try done;
    try (apply IH; done);
    try (by apply renderResponses_flag_down).
  all: cbn in Hdown; congruence.
Qed.
End loop_facts.

Section bound_facts.
Context `{DateBuiltin}.

Lemma owes_step (e : Event) (st : Loop) (n : nat) :
  owes st n →
  ∃ n', owes (step e st) n' ∧
        (length (requests (world (step e st))) + n'
         ≤ length (requests (world st)) + n + 3 * clicks [e])%nat.
Proof.
  intros [[Hnone ->]|(Hflag & p & k & Hwait & Hstage)].
  - destruct e as [event|p payload|p].
    + destruct (isDeathLoading (world st)) eqn:Hloading.
      * rewrite step_click_loading by done. exists 0%nat. split; [by left|simpl; lia].
      * destruct (step_click_idle event st) as (k & -> & Hk); [done|].
        exists 2%nat. split.
        -- right. split; [done|]. exists (length (requests (world st))), k. eauto.
        -- cbn [world]. unfold started. rewrite length_requested. simpl. lia.
    + rewrite step_response_unawaited by (rewrite Hnone; apply not_elem_of_nil).
      exists 0%nat. split; [by left|simpl; lia].
    + rewrite step_failure_unawaited by (rewrite Hnone; apply not_elem_of_nil).
      exists 0%nat. split; [by left|simpl; lia].
  - assert (Hsame : owes st n) by (right; eauto 10).
    destruct e as [event|q payload|q].
    + rewrite step_click_loading by done. exists n. split; [done|simpl; lia].
    + destruct (decide (q = p)) as [->|Hne].
      2:{ rewrite step_response_unawaited
            by (rewrite Hwait; by intros ?%list_elem_of_singleton).
          exists n. split; [done|simpl; lia]. }
      destruct st as [w suspended]. cbn [waiting world] in *. subst suspended.
      rewrite step_response_awaited.
      destruct Hstage as [(key & [_ Hk] & ->)|[(key & d & [_ Hk] & ->)|(d & r & [_ Hk] & ->)]].
      * destruct (Hk {| data := (newArray payload w).1 |} (newArray payload w).2)
          as (k2 & -> & Hk2).
        exists 1%nat. split.
        -- right. split; [done|]. eexists _, k2. split; [reflexivity|]. eauto 10.
        -- cbn [park world]. rewrite length_requested. simpl. lia.
      * destruct (Hk {| data := (newArray payload w).1 |} (newArray payload w).2)
          as (k3 & -> & Hk3).
        exists 0%nat. split.
        -- right. split; [done|]. eexists _, k3. split; [reflexivity|]. eauto 10.
        -- cbn [park world]. rewrite length_requested. simpl. lia.
      * rewrite Hk, park_completes by apply renderResponses_completes.
        exists 0%nat. split; [by left|].
        cbn [world]. rewrite renderResponses_requests. simpl. lia.
    + destruct (decide (q = p)) as [->|Hne].
      2:{ rewrite step_failure_unawaited
            by (rewrite Hwait; by intros ?%list_elem_of_singleton).
          exists n. split; [done|simpl; lia]. }
      destruct st as [w suspended]. cbn [waiting world] in *. subst suspended.
      assert (Hk : ∀ e w, k (Rejected e) w = Thrown e w).
      { by destruct Hstage as [(? & [? _] & _)|[(? & ? & [? _] & _)|(? & ? & [? _] & _)]]. }
      rewrite step_failure_awaited, Hk. exists 0%nat. split; [by left|simpl; lia].
Qed.

Lemma clicks_app (events events' : list Event) :
  clicks (events ++ events') = (clicks events + clicks events')%nat.
Proof.
  induction events as [|[event|p payload|p] events IH]; simpl; [done|lia|done|done].
Qed.

Lemma owes_run (events : list Event) (st : Loop) (n : nat) :
  owes st n →
  ∃ n', owes (run st events) n' ∧
        (length (requests (world (run st events))) + n'
         ≤ length (requests (world st)) + n + 3 * clicks events)%nat.
Proof.
  intros Hst. induction events as [|e events IH] using rev_ind.
  { exists n. split; [done|simpl; lia]. }
  destruct IH as (n1 & Hn1 & Hbound1).
  destruct (owes_step e _ _ Hn1) as (n2 & Hn2 & Hbound2).
  exists n2. rewrite run_snoc, clicks_app. split; [done|lia].
Qed.

(** X10: a page at rest sends at most three requests for each click it
    is given, whatever else arrives and in whatever order: ignored clicks,
    failures and late responses send none, and nothing is sent again. *)
Theorem at_most_three_requests_per_click (st : Loop) (events : list Event) :
  idle st →
  (length (requests (world (run st events)))
   ≤ length (requests (world st)) + 3 * clicks events)%nat.
Proof.
  intros [_ Hnone].
  destruct (owes_run events st 0%nat) as (n & _ & Hbound); [by left|]. lia.
Qed.

(** X11: the rank list is what a click reads its key from. Every record
    of the summary gets an item whose [id] is the record's slug, and a
    click at rest on that item, on its [span] or on its [p] requests the
    deaths of that slug. *)
Theorem rank_item_click_round_trip
    (data : CovidSummaryResponse) (w : World) (record : Country)
    (st : Loop) (part : EventTarget) :
  record ∈ countryArrays w !!! Countries data →
  idle st →
  part ∈ [HTMLLIElement (Slug record); HTMLSpanElement (Slug record);
          HTMLParagraphElement (Slug record)] →
  RankItem (Slug record) (Number_toString (TotalConfirmed record)) (Country_name record)
    ∈ rankList (worldOf (setCountryRanksByConfirmedCases data w)) ∧
  requests (world (step (Click {| target := part |}) st))
  = requests (world st)
    ++ [countryUrl (Some (Slug record)) Deaths].
Proof.
  intros Hrecord Hidle Hpart. split.
  - rewrite setCountryRanksByConfirmedCases_eq. cbn [worldOf rankList set_rankList].
    apply elem_of_app. right. apply (list_elem_of_fmap_2 rankItem).
    by rewrite Array_sort_perm.
  - destruct (step_click_idle {| target := part |} st Hidle) as (k & -> & _).
    cbn [world]. unfold started, requested. cbn [requests set_requests]. do 2 f_equal.
    rewrite !elem_of_cons in Hpart.
    destruct Hpart as [->|[->|[->|Hpart]]]; [done..|]. by apply elem_of_nil in Hpart.
Qed.

(** X12: rendering a detail list sorts the array of the response in
    place. For entries that have dates, the array afterwards holds the
    same entries newest first, is left as it was when it already was in
    that order, and no other array in the store changes. *)
Theorem detail_render_sorts_the_response_in_place
    (data : CountryInfoResponse) (w : World) :
  Forall hasDate (infoArrays w !!! data) →
  ∃ w' w'',
    setDeathsList data w = Returned tt w' ∧
    setRecoveredList data w = Returned tt w'' ∧
    infoArrays w'' = infoArrays w' ∧
    infoArrays w' !!! data ≡ₚ infoArrays w !!! data ∧
    StronglySorted (desc timeOf) (infoArrays w' !!! data) ∧
    (StronglySorted (desc timeOf) (infoArrays w !!! data) →
     infoArrays w' !!! data = infoArrays w !!! data) ∧
    (∀ other, other ≠ data → infoArrays w' !! other = infoArrays w !! other).
Proof.
  intros Hdates. eexists _, _.
  split; [apply setDeathsList_eq|]. split; [apply setRecoveredList_eq|].
  cbn [infoArrays set_deathsList set_recoveredList set_infoArrays].
  rewrite lookup_total_insert_eq. split_and!.
  - done.
  - apply Array_sort_perm.
  - by apply (Array_sort_desc _ _ _ byDate_desc).
  - intros Hsorted. by apply (Array_sort_sorted _ _ _ byDate_desc).
  - intros other Hother. by rewrite lookup_insert_ne.
Qed.
End bound_facts.

(** ** The order of the lists is the only one possible *)

Section order_facts.
Context `{DateBuiltin}.

(** X13: the order of the rank list is determined by its two properties:
    whatever arrangement of the records is non-increasing in the confirmed
    count and keeps the records of each count in their input order, its
    items are the items appended. *)
Theorem rank_list_order_is_determined
    (data : CovidSummaryResponse) (w : World) (arranged : list Country) :
  StronglySorted (desc TotalConfirmed) arranged →
  (∀ n, filter (λ c, TotalConfirmed c = n) arranged
        = filter (λ c, TotalConfirmed c = n) (countryArrays w !!! Countries data)) →
  rankList (worldOf (setCountryRanksByConfirmedCases data w))
  = rankList w ++ (rankItem <$> arranged).
Proof.
  intros Hsorted Hstable. rewrite setCountryRanksByConfirmedCases_eq.
  cbn [worldOf rankList set_rankList]. do 2 f_equal. symmetry.
  apply (Array_sort_unique _ TotalConfirmed (λ _, True)); [done| |done..].
  by apply Forall_forall.
Qed.

(** X14: likewise for the detail lists, when the entries have dates:
    whatever arrangement of the entries is non-increasing in the date and
    keeps the entries of each date in their input order, its items are
    the items appended to the deaths list and to the recovered list. *)
Theorem detail_list_order_is_determined
    (data : CountryInfoResponse) (w : World) (arranged : list CountryInfo) :
  Forall hasDate (infoArrays w !!! data) →
  StronglySorted (desc timeOf) arranged →
  (∀ t, filter (λ e, timeOf e = t) arranged
        = filter (λ e, timeOf e = t) (infoArrays w !!! data)) →
  deathsList (worldOf (setDeathsList data w))
  = deathsList w ++ (detailItem "deaths" <$> arranged) ∧
  recoveredList (worldOf (setRecoveredList data w))
  = recoveredList w ++ (detailItem "recovered" <$> arranged).
Proof.
  intros Hdates Hsorted Hstable. rewrite setDeathsList_eq, setRecoveredList_eq.
  cbn [worldOf deathsList recoveredList set_deathsList set_recoveredList].
  by rewrite <- (Array_sort_unique _ timeOf hasDate byDate_desc _ arranged).
Qed.

(** X15: with the flag up and no call suspended the page is at a dead
    end: no click, response or failure changes anything any more, and
    clicks return at once. *)
Theorem flag_up_without_a_call_is_a_dead_end
    (st : Loop) (events : list Event) (event : MouseEvent) :
  isDeathLoading (world st) = true →
  waiting st = [] →
  run st events = st ∧
  handleListClick event (world (run st events)) = Returned tt (world st).
Proof.
  intros Hup Hnone. rewrite locked_forever by done.
  split; [done|]. by apply handleListClick_loading.
Qed.
End order_facts.

(** ** These theorems at work on the example page *)

Lemma world_counters_are_sums_witness :
  countryArrays summaryWorld !!! 0%nat ≡ₚ [country2; country1] ∧
  setTotalDeathsByWorld {| Countries := 0%nat |} summaryWorld
  = Returned tt (set_deathsTotal
      (Number_toString (sumOf TotalDeaths [country2; country1])) summaryWorld) ∧
  setTotalRecoveredByWorld {| Countries := 0%nat |} summaryWorld
  = Returned tt (set_recoveredTotal
      (Number_toString (sumOf TotalRecovered [country2; country1])) summaryWorld) ∧
  confirmedTotal (setTotalConfirmedNumber {| Countries := 0%nat |} summaryWorld
                    {| confirmedTotal := "" |})
  = Number_toString (sumOf TotalConfirmed [country2; country1]).
Proof.
  assert (Hperm : countryArrays summaryWorld !!! 0%nat ≡ₚ [country2; country1]).
  { vm_compute. apply Permutation_swap. }
  split; [exact Hperm|].
  exact (world_counters_are_sums {| Countries := 0%nat |} summaryWorld
           [country2; country1] {| confirmedTotal := "" |} Hperm).
Defined.

(** The counters of the example of the spec: 30 confirmed, 4 deaths, 6
    recovered. *)
Example world_counters_example :
  deathsTotal (worldOf (setTotalDeathsByWorld {| Countries := 0%nat |} summaryWorld)) = "4" ∧
  recoveredTotal (worldOf (setTotalRecoveredByWorld {| Countries := 0%nat |} summaryWorld))
  = "6" ∧
  confirmedTotal (setTotalConfirmedNumber {| Countries := 0%nat |} summaryWorld
                    {| confirmedTotal := "" |}) = "30".
Proof. by vm_compute. Qed.

Lemma loading_animation_round_trip_witness :
  (deathSpinner ∉ deathsList (holding [entry1])) ∧
  (recoveredSpinner ∉ recoveredList (holding [entry1])) ∧
  (@startLoadingAnimation;; @endLoadingAnimation) (holding [entry1])
  = Returned tt (holding [entry1]).
Proof.
  assert (Hd : deathSpinner ∉ deathsList (holding [entry1])) by apply not_elem_of_nil.
  assert (Hr : recoveredSpinner ∉ recoveredList (holding [entry1]))
    by apply not_elem_of_nil.
  split; [exact Hd|]. split; [exact Hr|].
  exact (loading_animation_round_trip (holding [entry1]) Hd Hr).
Defined.

Lemma loading_animation_end_without_spinner_witness :
  (deathSpinner ∉ deathsList emptyWorld ∨ recoveredSpinner ∉ recoveredList emptyWorld) ∧
  ∃ w',
    endLoadingAnimation emptyWorld = Thrown NotFoundError w' ∧
    recoveredList w' = recoveredList emptyWorld ∧
    deathsList w' = filter (λ n, n ≠ deathSpinner) (deathsList emptyWorld) ∧
    isDeathLoading w' = isDeathLoading emptyWorld ∧
    (deathSpinner ∉ deathsList emptyWorld → w' = emptyWorld).
Proof.
  assert (Hmissing : deathSpinner ∉ deathsList emptyWorld
                     ∨ recoveredSpinner ∉ recoveredList emptyWorld)
    by (left; apply not_elem_of_nil).
  split; [exact Hmissing|].
  exact (loading_animation_end_without_spinner emptyWorld Hmissing).
Defined.

Lemma served_click_renders_the_page_witness :
  idle atRest ∧ charts (world atRest) = [] ∧
  [entry1; entry2] ≠ [] ∧ [entry2; entry1] ≠ [] ∧
  Forall (@hasDate exampleDate) [entry1; entry2] ∧
  Forall (@hasDate exampleDate) [entry2; entry1] ∧
  idle (@run exampleDate atRest
          [Click thailandClick; Response 0%nat [entry1; entry2];
           Response 1%nat [entry2; entry1]; Response 2%nat [entry1]]).
Proof.
  assert (Hfree : charts (world atRest) = []) by reflexivity.
  assert (Hd : [entry1; entry2] ≠ []) by discriminate.
  assert (Hr : [entry2; entry1] ≠ []) by discriminate.
  assert (HdatesD : Forall (@hasDate exampleDate) [entry1; entry2])
    by (repeat constructor; discriminate).
  assert (HdatesR : Forall (@hasDate exampleDate) [entry2; entry1])
    by (repeat constructor; discriminate).
  split; [exact idle_atRest|]. split; [exact Hfree|].
  split; [exact Hd|]. split; [exact Hr|].
  split; [exact HdatesD|]. split; [exact HdatesR|].
  exact (proj1 (@served_click_renders_the_page exampleDate atRest thailandClick
                  [entry1; entry2] [entry2; entry1] [entry1]
                  idle_atRest Hfree Hd Hr HdatesD HdatesR)).
Defined.

Lemma click_on_a_used_canvas_locks_the_page_witness :
  idle thailandServed ∧ charts (world thailandServed) ≠ [] ∧
  [entry2] ≠ [] ∧ [entry1] ≠ [] ∧
  Forall (@hasDate exampleDate) [entry2] ∧
  Forall (@hasDate exampleDate) [entry1] ∧
  let st4 := @run exampleDate thailandServed
               [Click thailandClick; Response 3%nat [entry2]; Response 4%nat [entry1];
                Response 5%nat [entry1; entry2]] in
  isDeathLoading (world st4) = true ∧
  waiting st4 = [] ∧
  charts (world st4) = charts (world thailandServed).
Proof.
  assert (Hidle : idle thailandServed) by (vm_compute; split; reflexivity).
  assert (Hused : charts (world thailandServed) ≠ []) by (vm_compute; discriminate).
  assert (Hd : [entry2] ≠ []) by discriminate.
  assert (Hr : [entry1] ≠ []) by discriminate.
  assert (HdatesD : Forall (@hasDate exampleDate) [entry2])
    by (repeat constructor; discriminate).
  assert (HdatesR : Forall (@hasDate exampleDate) [entry1])
    by (repeat constructor; discriminate).
  split; [exact Hidle|]. split; [exact Hused|].
  split; [exact Hd|]. split; [exact Hr|].
  split; [exact HdatesD|]. split; [exact HdatesR|].
  pose proof (@click_on_a_used_canvas_locks_the_page exampleDate thailandServed
                thailandClick [entry2] [entry1] [entry1; entry2]
                Hidle Hused Hd Hr HdatesD HdatesR) as (Hup & Hnone & Hcharts & _).
  exact (conj Hup (conj Hnone Hcharts)).
Defined.

Lemma empty_response_locks_the_page_for_good_witness :
  idle atRest ∧ ([entry1] = [] ∨ [] = ([] : list CountryInfo)) ∧
  let st4 := @run exampleDate atRest
               [Click thailandClick; Response 0%nat [entry1]; Response 1%nat [];
                Response 2%nat [entry2]] in
  isDeathLoading (world st4) = true ∧
  waiting st4 = [] ∧
  deathsList (world st4)
  = @detailItem exampleDate "deaths"
      <$> Array_sort (λ a b, number_sub (@getUnixTimestamp exampleDate (Date b))
                               (@getUnixTimestamp exampleDate (Date a))) [entry1] ∧
  recoveredList (world st4) = [] ∧
  recoveredTotal (world st4) = recoveredTotal (world atRest) ∧
  charts (world st4) = charts (world atRest) ∧
  ([entry1] = [] → deathsTotal (world st4) = deathsTotal (world atRest)) ∧
  (∀ later, @run exampleDate st4 later = st4).
Proof.
  assert (Hempty : [entry1] = [] ∨ [] = ([] : list CountryInfo)) by (right; reflexivity).
  split; [exact idle_atRest|]. split; [exact Hempty|].
  exact (@empty_response_locks_the_page_for_good exampleDate atRest thailandClick
           [entry1] [] [entry2] idle_atRest Hempty).
Defined.

Lemma clicks_leave_the_summary_alone_witness :
  idle atRest ∧
  rankList (world (@run exampleDate atRest [Click thailandClick; Failure 0%nat]))
  = rankList (world atRest) ∧
  countryArrays (world (@run exampleDate atRest [Click thailandClick; Failure 0%nat]))
  = countryArrays (world atRest) ∧
  requests (world atRest)
  `prefix_of` requests (world (@run exampleDate atRest [Click thailandClick; Failure 0%nat])).
Proof.
  split; [exact idle_atRest|].
  exact (@clicks_leave_the_summary_alone exampleDate atRest
           [Click thailandClick; Failure 0%nat] idle_atRest).
Defined.

Lemma spinners_only_while_loading_witness :
  idle atRest ∧
  (deathSpinner ∉ deathsList (world atRest)) ∧
  (recoveredSpinner ∉ recoveredList (world atRest)) ∧
  isDeathLoading
    (world (@run exampleDate atRest
              [Click thailandClick; Response 0%nat [entry1]; Response 1%nat [entry2];
               Response 2%nat [entry1]])) = false ∧
  (deathSpinner
     ∉ deathsList
         (world (@run exampleDate atRest
                   [Click thailandClick; Response 0%nat [entry1]; Response 1%nat [entry2];
                    Response 2%nat [entry1]]))) ∧
  (recoveredSpinner
     ∉ recoveredList
         (world (@run exampleDate atRest
                   [Click thailandClick; Response 0%nat [entry1]; Response 1%nat [entry2];
                    Response 2%nat [entry1]]))) ∧
  waiting (@run exampleDate atRest
             [Click thailandClick; Response 0%nat [entry1]; Response 1%nat [entry2];
              Response 2%nat [entry1]]) = [].
Proof.
  assert (Hd : deathSpinner ∉ deathsList (world atRest)) by apply not_elem_of_nil.
  assert (Hr : recoveredSpinner ∉ recoveredList (world atRest)) by apply not_elem_of_nil.
  assert (Hdown :
    isDeathLoading
      (world (@run exampleDate atRest
                [Click thailandClick; Response 0%nat [entry1]; Response 1%nat [entry2];
                 Response 2%nat [entry1]])) = false) by (vm_compute; reflexivity).
  split; [exact idle_atRest|]. split; [exact Hd|]. split; [exact Hr|].
  split; [exact Hdown|].
  exact (@spinners_only_while_loading exampleDate atRest
           [Click thailandClick; Response 0%nat [entry1]; Response 1%nat [entry2];
            Response 2%nat [entry1]] idle_atRest Hd Hr Hdown).
Defined.

Lemma at_most_three_requests_per_click_witness :
  idle atRest ∧
  (length (requests (world (@run exampleDate atRest
                              [Click thailandClick; Click listClick; Response 0%nat [entry1];
                               Click listClick; Failure 1%nat; Click thailandClick])))
   ≤ length (requests (world atRest))
     + 3 * clicks [Click thailandClick; Click listClick; Response 0%nat [entry1];
                   Click listClick; Failure 1%nat; Click thailandClick])%nat.
Proof.
  split; [exact idle_atRest|].
  exact (@at_most_three_requests_per_click exampleDate atRest
           [Click thailandClick; Click listClick; Response 0%nat [entry1];
            Click listClick; Failure 1%nat; Click thailandClick] idle_atRest).
Defined.

Lemma rank_item_click_round_trip_witness :
  country1 ∈ countryArrays summaryWorld !!! 0%nat ∧
  idle atRest ∧
  HTMLSpanElement (Slug country1)
    ∈ [HTMLLIElement (Slug country1); HTMLSpanElement (Slug country1);
       HTMLParagraphElement (Slug country1)] ∧
  RankItem (Slug country1) (Number_toString (TotalConfirmed country1)) (Country_name country1)
    ∈ rankList (worldOf (setCountryRanksByConfirmedCases {| Countries := 0%nat |}
                           summaryWorld)) ∧
  requests (world (@step exampleDate
                     (Click {| target := HTMLSpanElement (Slug country1) |}) atRest))
  = requests (world atRest) ++ [countryUrl (Some (Slug country1)) Deaths].
Proof.
  assert (Hrecord : country1 ∈ countryArrays summaryWorld !!! 0%nat).
  { vm_compute. apply list_elem_of_here. }
  assert (Hpart : HTMLSpanElement (Slug country1)
                    ∈ [HTMLLIElement (Slug country1); HTMLSpanElement (Slug country1);
                       HTMLParagraphElement (Slug country1)]).
  { apply list_elem_of_further, list_elem_of_here. }
  split; [exact Hrecord|]. split; [exact idle_atRest|]. split; [exact Hpart|].
  exact (@rank_item_click_round_trip exampleDate {| Countries := 0%nat |} summaryWorld
           country1 atRest (HTMLSpanElement (Slug country1)) Hrecord idle_atRest Hpart).
Defined.

Lemma detail_render_sorts_the_response_in_place_witness :
  Forall (@hasDate exampleDate) (infoArrays (holding [entry1; entry2]) !!! 0%nat) ∧
  ∃ w' w'',
    @setDeathsList exampleDate 0%nat (holding [entry1; entry2]) = Returned tt w' ∧
    @setRecoveredList exampleDate 0%nat (holding [entry1; entry2]) = Returned tt w'' ∧
    infoArrays w'' = infoArrays w' ∧
    infoArrays w' !!! 0%nat ≡ₚ infoArrays (holding [entry1; entry2]) !!! 0%nat ∧
    StronglySorted (desc (@timeOf exampleDate)) (infoArrays w' !!! 0%nat) ∧
    (StronglySorted (desc (@timeOf exampleDate))
       (infoArrays (holding [entry1; entry2]) !!! 0%nat) →
     infoArrays w' !!! 0%nat = infoArrays (holding [entry1; entry2]) !!! 0%nat) ∧
    (∀ other, other ≠ 0%nat →
              infoArrays w' !! other = infoArrays (holding [entry1; entry2]) !! other).
Proof.
  assert (Hdates : Forall (@hasDate exampleDate)
                     (infoArrays (holding [entry1; entry2]) !!! 0%nat)).
  { vm_compute. repeat constructor; discriminate. }
  split; [exact Hdates|].
  exact (@detail_render_sorts_the_response_in_place exampleDate 0%nat
           (holding [entry1; entry2]) Hdates).
Defined.

Lemma rank_list_order_is_determined_witness :
  StronglySorted (desc TotalConfirmed) [country2; country1] ∧
  (∀ n, filter (λ c, TotalConfirmed c = n) [country2; country1]
        = filter (λ c, TotalConfirmed c = n) (countryArrays summaryWorld !!! 0%nat)) ∧
  rankList (worldOf (setCountryRanksByConfirmedCases {| Countries := 0%nat |} summaryWorld))
  = rankList summaryWorld ++ (rankItem <$> [country2; country1]).
Proof.
  assert (Hsorted : StronglySorted (desc TotalConfirmed) [country2; country1]).
  { repeat constructor. unfold desc. simpl. lia. }
  assert (Hstable :
    ∀ n, filter (λ c, TotalConfirmed c = n) [country2; country1]
         = filter (λ c, TotalConfirmed c = n) (countryArrays summaryWorld !!! 0%nat)).
  { intros n. change (countryArrays summaryWorld !!! 0%nat) with [country1; country2].
    rewrite !filter_cons, !filter_nil. simpl.
    repeat case_decide; try reflexivity; lia. }
  split; [exact Hsorted|]. split; [exact Hstable|].
  exact (rank_list_order_is_determined {| Countries := 0%nat |} summaryWorld
           [country2; country1] Hsorted Hstable).
Defined.

Lemma detail_list_order_is_determined_witness :
  Forall (@hasDate exampleDate) (infoArrays (holding [entry1; entry2]) !!! 0%nat) ∧
  StronglySorted (desc (@timeOf exampleDate)) [entry2; entry1] ∧
  deathsList (worldOf (@setDeathsList exampleDate 0%nat (holding [entry1; entry2])))
  = deathsList (holding [entry1; entry2])
    ++ (@detailItem exampleDate "deaths" <$> [entry2; entry1]) ∧
  recoveredList (worldOf (@setRecoveredList exampleDate 0%nat (holding [entry1; entry2])))
  = recoveredList (holding [entry1; entry2])
    ++ (@detailItem exampleDate "recovered" <$> [entry2; entry1]).
Proof.
  assert (Hdates : Forall (@hasDate exampleDate)
                     (infoArrays (holding [entry1; entry2]) !!! 0%nat)).
  { vm_compute. repeat constructor; discriminate. }
  assert (Hsorted : StronglySorted (desc (@timeOf exampleDate)) [entry2; entry1]).
  { repeat constructor. unfold desc. vm_compute. discriminate. }
  assert (Hstable :
    ∀ t, filter (λ e, @timeOf exampleDate e = t) [entry2; entry1]
         = filter (λ e, @timeOf exampleDate e = t)
             (infoArrays (holding [entry1; entry2]) !!! 0%nat)).
  { intros t. change (infoArrays (holding [entry1; entry2]) !!! 0%nat)
      with [entry1; entry2].
    rewrite !filter_cons, !filter_nil.
    change (@timeOf exampleDate entry1) with 1609459200000.
    change (@timeOf exampleDate entry2) with 1609545600000.
    repeat case_decide; try reflexivity; lia. }
  split; [exact Hdates|]. split; [exact Hsorted|].
  exact (@detail_list_order_is_determined exampleDate 0%nat (holding [entry1; entry2])
           [entry2; entry1] Hdates Hsorted Hstable).
Defined.

Lemma flag_up_without_a_call_is_a_dead_end_witness :
  isDeathLoading (world (@run exampleDate atRest [Click thailandClick; Failure 0%nat]))
  = true ∧
  waiting (@run exampleDate atRest [Click thailandClick; Failure 0%nat]) = [] ∧
  @run exampleDate (@run exampleDate atRest [Click thailandClick; Failure 0%nat])
    [Click listClick; Response 0%nat [entry1]]
  = @run exampleDate atRest [Click thailandClick; Failure 0%nat].
Proof.
  assert (Hup :
    isDeathLoading (world (@run exampleDate atRest [Click thailandClick; Failure 0%nat]))
    = true) by (vm_compute; reflexivity).
  assert (Hnone :
    waiting (@run exampleDate atRest [Click thailandClick; Failure 0%nat]) = [])
    by (vm_compute; reflexivity).
  split; [exact Hup|]. split; [exact Hnone|].
  exact (proj1 (@flag_up_without_a_call_is_a_dead_end exampleDate
                  (@run exampleDate atRest [Click thailandClick; Failure 0%nat])
                  [Click listClick; Response 0%nat [entry1]] listClick Hup Hnone)).
Defined.

Lemma canvas_holds_at_most_one_chart_witness :
  idle atRest ∧ (length (charts (world atRest)) ≤ 1)%nat ∧
  let events :=
    [Click thailandClick; Response 0%nat [entry1]; Response 1%nat [entry2];
     Response 2%nat [entry1; entry2];
     Click thailandClick; Response 3%nat [entry2]; Response 4%nat [entry1];
     Response 5%nat [entry2]] in
  (length (charts (world (@run exampleDate atRest events))) ≤ 1)%nat ∧
  charts (world atRest) `prefix_of` charts (world (@run exampleDate atRest events)).
Proof.
  assert (Hone : (length (charts (world atRest)) ≤ 1)%nat) by (simpl; lia).
  split; [exact idle_atRest|]. split; [exact Hone|].
  exact (@canvas_holds_at_most_one_chart exampleDate atRest
           [Click thailandClick; Response 0%nat [entry1]; Response 1%nat [entry2];
            Response 2%nat [entry1; entry2];
            Click thailandClick; Response 3%nat [entry2]; Response 4%nat [entry1];
            Response 5%nat [entry2]] idle_atRest Hone).
Defined.
